(** * nest-toc: nesting child types under their parents in a DocFX table of contents

    A shallow embedding of [Documentation/scripts/nest-toc.py] and the
    properties of its three stages (parser, nester, writer) and of its driver.

    Python's [str] is modelled by [string]; a character is an [ascii], read as
    a code point in the range U+0000..U+00FF.  Dictionaries with a fixed set of
    keys become constructors with one argument per key; a key that may hold
    [None] becomes an [option].  Exceptions are values of [exn] carried by the
    [result] type. *)

From Stdlib Require Import Ascii String.
From stdpp Require Import base option list strings gmap.

Set Warnings "-register-all".

(** ** Python string operations used by the script *)

Module PyStr.

Definition newline : ascii := "010"%char.

(** [str.isspace] on one character, for code points below 256. *)
Definition isspace (c : ascii) : bool :=
  match c with
  | "009" | "010" | "011" | "012" | "013"
  | "028" | "029" | "030" | "031" | " "
  | "133" | "160" => true
  | _ => false
  end%char.

Definition len (s : string) : nat := String.length s.

(** [s.lstrip()] *)
Fixpoint lstrip (s : string) : string :=
  match s with
  | "" => ""
  | String c s' => if isspace c then lstrip s' else s
  end.

Definition is_empty (s : string) : bool :=
  match s with "" => true | _ => false end.

(** [s.rstrip()] *)
Fixpoint rstrip (s : string) : string :=
  match s with
  | "" => ""
  | String c s' =>
      let r := rstrip s' in
      if isspace c && is_empty r then "" else String c r
  end.

(** [s.strip()] *)
Definition strip (s : string) : string := rstrip (lstrip s).

(** [s.startswith(p)] *)
Fixpoint startswith (s p : string) {struct p} : bool :=
  match p, s with
  | "", _ => true
  | String a p', String b s' => if Ascii.eqb a b then startswith s' p' else false
  | String _ _, "" => false
  end.

(** [s.replace(pat, '')] for a non-empty [pat]: every occurrence of [pat],
    found from left to right without overlap, is removed.  [skip] counts
    the characters of a found occurrence still to be dropped. *)
Fixpoint remove_go (pat : string) (skip : nat) (s : string) : string :=
  match s with
  | "" => ""
  | String c s' =>
      match skip with
      | S k => remove_go pat k s'
      | O =>
          if startswith s pat
          then remove_go pat (pred (len pat)) s'
          else String c (remove_go pat 0 s')
      end
  end.

Definition remove (pat s : string) : string := remove_go pat 0 s.

(** [s.split('\n')] *)
Fixpoint split_lines (s : string) : list string :=
  match s with
  | "" => [""]
  | String c s' =>
      let r := split_lines s' in
      if Ascii.eqb c newline then "" :: r
      else match r with
           | x :: xs => String c x :: xs
           | [] => [String c ""]
           end
  end.

(** ['\n'.join(ls)] *)
Fixpoint join_lines (ls : list string) : string :=
  match ls with
  | [] => ""
  | [x] => x
  | x :: xs => x +:+ String newline (join_lines xs)
  end.

(** ['.' in s] *)
Fixpoint has_dot (s : string) : bool :=
  match s with
  | "" => false
  | String c s' => Ascii.eqb c "."%char || has_dot s'
  end.

(** [s.rsplit('.', 1)]: [None] when [s] holds no dot (Python then returns
    the one-element list [[s]]), otherwise the text before and the text
    after the last dot. *)
Fixpoint rsplit_dot (s : string) : option (string * string) :=
  match s with
  | "" => None
  | String c s' =>
      match rsplit_dot s' with
      | Some (p, ch) => Some (String c p, ch)
      | None => if Ascii.eqb c "."%char then Some ("", s') else None
      end
  end.

(** ['  ' * n] *)
Fixpoint indent_prefix (n : nat) : string :=
  match n with
  | O => ""
  | S k => "  " +:+ indent_prefix k
  end.

(** [len(line) - len(line.lstrip())] *)
Definition indent_of (line : string) : nat := len line - len (lstrip line).

End PyStr.

Import PyStr.

(** ** Exceptions *)

Inductive exn : Set :=
  | TypeError   (* ['.' in None], [None['items']] *)
  | IndexError. (* [l[1]] on a list of one element *)

Inductive result (A : Type) : Type :=
  | OK (a : A)
  | Raise (e : exn).
Arguments OK {A} a.
Arguments Raise {A} e.

Global Instance result_ret : MRet result := λ A a, OK a.
Global Instance result_bind : MBind result := λ A B f m,
  match m with
  | OK a => f a
  | Raise e => Raise e
  end.

(** A [for] loop whose body may raise: the first exception ends the loop. *)
Fixpoint for_each {S A : Type} (body : S → A → result S) (s : S) (l : list A)
    : result S :=
  match l with
  | [] => OK s
  | x :: l' => s' ← body s x; for_each body s' l'
  end.

(** ** Data model *)

(** An item dictionary: keys ['uid'], ['name'], ['type'] and, once the nester
    or a caller has added it, ['children']. *)
Inductive item : Type :=
  Item {
    i_uid : string;
    i_name : option string;
    i_type : option string;
    i_children : option (list item)
  }.

(** A namespace dictionary: keys ['uid'], ['name'], ['type'], ['items']. *)
Record namespace : Type :=
  Namespace {
    ns_uid : string;
    ns_name : option string;
    ns_type : option string;
    ns_items : list item
  }.

Definition set_i_name (v : string) (it : item) : item :=
  Item (i_uid it) (Some v) (i_type it) (i_children it).
Definition set_i_type (v : string) (it : item) : item :=
  Item (i_uid it) (i_name it) (Some v) (i_children it).
Definition set_ns_name (v : string) (ns : namespace) : namespace :=
  Namespace (ns_uid ns) (Some v) (ns_type ns) (ns_items ns).
Definition set_ns_type (v : string) (ns : namespace) : namespace :=
  Namespace (ns_uid ns) (ns_name ns) (Some v) (ns_items ns).
Definition set_ns_items (l : list item) (ns : namespace) : namespace :=
  Namespace (ns_uid ns) (ns_name ns) (ns_type ns) l.

(** ** Parser: [parse_toc] *)

(** The local variables of [parse_toc].  [current_item] aliases an element of
    [current_namespace['items']]; it is kept as the position of that element,
    and an assignment through it updates the list in place. *)
Record pstate : Type :=
  PState {
    p_result : list namespace;
    current_namespace : option namespace;
    current_item : option nat
  }.

Definition parse_init : pstate := PState [] None None.

Definition ns_name_unset (o : option namespace) : bool :=
  match o with Some ns => bool_decide (ns_name ns = None) | None => false end.
Definition ns_type_unset (o : option namespace) : bool :=
  match o with Some ns => bool_decide (ns_type ns = None) | None => false end.

(** [current_item[key] = v]: the write lands in the namespace's list.  The
    caller has tested that [current_item] is set, and it is set only while a
    namespace is. *)
Definition update_current_item (f : item → item) (st : pstate) : pstate :=
  match current_item st, current_namespace st with
  | Some i, Some ns =>
      PState (p_result st)
             (Some (set_ns_items (alter f i (ns_items ns)) ns))
             (current_item st)
  | _, _ => st
  end.

(** One turn of the [while] loop, on [lines[i]]. *)
Definition parse_line (st : pstate) (line : string) : result pstate :=
  let stripped := strip line in
  if is_empty stripped || startswith stripped "###" then OK st
  else
    let indent := indent_of line in
    if String.eqb stripped "items:" && Nat.eqb indent 0 then OK st
    else if startswith stripped "- uid:" && Nat.eqb indent 0 then
      OK (PState (p_result st ++ option_list (current_namespace st))
                 (Some (Namespace (strip (remove "- uid:" stripped)) None None []))
                 None)
    else if startswith stripped "name:" && Nat.eqb indent 2
            && ns_name_unset (current_namespace st) then
      OK (PState (p_result st)
                 (set_ns_name (strip (remove "name:" stripped)) <$> current_namespace st)
                 (current_item st))
    else if startswith stripped "type:" && Nat.eqb indent 2
            && ns_type_unset (current_namespace st) then
      OK (PState (p_result st)
                 (set_ns_type (strip (remove "type:" stripped)) <$> current_namespace st)
                 (current_item st))
    else if String.eqb stripped "items:" && Nat.eqb indent 2 then OK st
    else if startswith stripped "- uid:" && Nat.eqb indent 2 then
      let new_item := Item (strip (remove "- uid:" stripped)) None None None in
      match current_namespace st with
      | None => Raise TypeError  (* [None['items']] *)
      | Some ns =>
          OK (PState (p_result st)
                     (Some (set_ns_items (ns_items ns ++ [new_item]) ns))
                     (Some (length (ns_items ns))))
      end
    else if startswith stripped "name:" && Nat.eqb indent 4
            && bool_decide (is_Some (current_item st)) then
      OK (update_current_item (set_i_name (strip (remove "name:" stripped))) st)
    else if startswith stripped "type:" && Nat.eqb indent 4
            && bool_decide (is_Some (current_item st)) then
      OK (update_current_item (set_i_type (strip (remove "type:" stripped))) st)
    else OK st.

Definition parse_lines : pstate → list string → result pstate :=
  for_each parse_line.

Definition parse_finish (st : pstate) : list namespace :=
  p_result st ++ option_list (current_namespace st).

Definition parse_toc (content : string) : result (list namespace) :=
  st ← parse_lines parse_init (split_lines content);
  OK (parse_finish st).

(** Text of several lines, each ended by a newline. *)
Definition text (ls : list string) : string :=
  join_lines ls +:+ String newline "".

(** ** Nester: [nest_items] *)

(** [potential_parent['children'].append(child)], after the key has been
    created when missing. *)
Definition append_child (child : item) (p : item) : item :=
  Item (i_uid p) (i_name p) (i_type p)
       (Some (default [] (i_children p) ++ [child])).

(** Position of the first [potential_parent] with
    [potential_parent.get('name') == parent_name]. *)
Definition find_parent (parent_name : string) (items : list item) : option nat :=
  fst <$> list_find (λ p, i_name p = Some parent_name) items.

(** The body of the first pass, for the item at position [i] of [items].  The
    item dictionaries are shared between the list being scanned and the list
    being updated, so the item is read from the current list. *)
Definition nest_one (st : list item * gset string) (i : nat)
    : result (list item * gset string) :=
  let '(items, nested_names) := st in
  match items !! i with
  | None => OK st  (* no such turn: [i] runs over the positions of [items] *)
  | Some item =>
      match i_name item with
      | None => Raise TypeError  (* ['.' in None] *)
      | Some name =>
          if has_dot name then
            match rsplit_dot name with
            | None => Raise IndexError
            | Some (parent_name, child_name) =>
                match find_parent parent_name items with
                | Some j =>
                    let child := Item (i_uid item) (Some child_name) (i_type item) None in
                    OK (alter (append_child child) j items, {[ name ]} ∪ nested_names)
                | None => OK st
                end
            end
          else OK st
      end
  end.

(** [item.get('name') in nested_names] *)
Definition is_nested (nested_names : gset string) (it : item) : Prop :=
  match i_name it with
  | Some n => n ∈ nested_names
  | None => False
  end.

Global Instance is_nested_dec nested_names it : Decision (is_nested nested_names it).
Proof. unfold is_nested. destruct (i_name it); apply _. Defined.

(** The body of the loop over namespaces; [for item in items] visits the
    positions of the list in order. *)
Definition nest_namespace (ns : namespace) : result namespace :=
  match ns_items ns with
  | [] => OK ns
  | items =>
      '(items', nested_names) ← for_each nest_one (items, ∅) (seq 0 (length items));
      OK (set_ns_items (filter (λ it, ¬ is_nested nested_names it) items') ns)
  end.

Definition nest_items (namespaces : list namespace) : result (list namespace) :=
  mapM nest_namespace namespaces.

(** ** Writer: [write_toc] *)

(** How an f-string renders a field. *)
Definition fmt (o : option string) : string := default "None" o.

(** The lines appended by [write_item(item, indent)]. *)
Fixpoint write_item (it : item) (indent : nat) : list string :=
  let prefix := indent_prefix indent in
  [prefix +:+ "- uid: " +:+ i_uid it;
   prefix +:+ "  name: " +:+ fmt (i_name it);
   prefix +:+ "  type: " +:+ fmt (i_type it)]
  ++ match i_children it with
     | Some ((_ :: _) as cs) =>
         (prefix +:+ "  items:")
           :: List.flat_map (λ child, write_item child (S indent)) cs
     | _ => []
     end.

(** The lines appended for one namespace. *)
Definition write_namespace (ns : namespace) : list string :=
  ["- uid: " +:+ ns_uid ns;
   "  name: " +:+ fmt (ns_name ns);
   "  type: " +:+ fmt (ns_type ns)]
  ++ match ns_items ns with
     | [] => []
     | items => "  items:" :: List.flat_map (λ it, write_item it 1) items
     end.

Definition toc_lines (namespaces : list namespace) : list string :=
  ["### YamlMime:TableOfContent"; "items:"]
  ++ List.flat_map write_namespace namespaces.

Definition write_toc (namespaces : list namespace) : string :=
  join_lines (toc_lines namespaces) +:+ String newline "".

(** ** Driver: [main] *)

(** What the process can observe and change: the file at [toc_path] (absent
    or with the text stored in it) and the two output streams, line by
    line. *)
Record world : Type :=
  World {
    w_file : option string;
    w_stdout : list string;
    w_stderr : list string
  }.

(** How a call of [main] ends: [sys.exit(n)], a normal return, or an
    exception that leaves it. *)
Inductive ending : Set :=
  | SysExit (code : nat)
  | Returned
  | Uncaught (e : exn).

Definition exit_status (e : ending) : nat :=
  match e with
  | SysExit n => n
  | Returned => 0
  | Uncaught _ => 1
  end.

(** [print(s)] writes to the standard output. *)
Definition print (s : string) (w : world) : world :=
  World (w_file w) (w_stdout w ++ [s]) (w_stderr w).

Definition carriage_return : ascii := "013"%char.

(** Reading in text mode: a carriage return followed by a line feed, and a
    carriage return alone, are both read as one line feed. *)
Fixpoint universal_newlines (s : string) : string :=
  match s with
  | "" => ""
  | String c rest =>
      if Ascii.eqb c carriage_return then
        String newline
          match rest with
          | String c' rest' =>
              if Ascii.eqb c' newline then universal_newlines rest'
              else universal_newlines rest
          | "" => ""
          end
      else String c (universal_newlines rest)
  end.

(** [toc_path.read_text()] on a file that holds [stored]. *)
Definition read_text (stored : string) : string := universal_newlines stored.

(** [toc_path.write_text(s)], where the line separator of the platform is
    the line feed: the file holds [s]. *)
Definition write_text (s : string) (w : world) : world :=
  World (Some s) (w_stdout w) (w_stderr w).

Section Driver.

(** The path [Path(__file__).parent.parent / 'api' / 'toc.yml'], as text. *)
Variable toc_path : string.

(** What the interpreter writes to the error stream for an exception that
    nobody catches; the text depends on where the script is installed and on
    the interpreter. *)
Variable traceback : exn → list string.

(** The function [main].  An exception of a stage leaves it before the file
    is written; [main] itself writes nothing to the error stream. *)
Definition main (w : world) : ending * world :=
  match w_file w with
  | None => (SysExit 1, print ("Error: " +:+ toc_path +:+ " not found") w)
  | Some stored =>
      let w := print ("Processing " +:+ toc_path +:+ "...") w in
      let content := read_text stored in
      match parse_toc content with
      | Raise e => (Uncaught e, w)
      | OK namespaces =>
          match nest_items namespaces with
          | Raise e => (Uncaught e, w)
          | OK nested =>
              let output := write_toc nested in
              let w := write_text output w in
              (Returned, print "TOC restructured successfully!" w)
          end
      end
  end.

(** The script run as a program, [if __name__ == '__main__': main()]: the
    exit status, and the traceback that the interpreter writes to the error
    stream when an exception has left [main]. *)
Definition run (w : world) : nat * world :=
  let '(e, w') := main w in
  match e with
  | Uncaught x =>
      (exit_status e, World (w_file w') (w_stdout w') (w_stderr w' ++ traceback x))
  | _ => (exit_status e, w')
  end.

(** The three stages on a text. *)
Definition pipeline (content : string) : result string :=
  namespaces ← parse_toc content;
  nested ← nest_items namespaces;
  OK (write_toc nested).

End Driver.

(** ** What the nester computes, stated without the loop *)

(** The three fields the parser reads and the nester copies. *)
Definition triple (it : item) : string * option string * option string :=
  (i_uid it, i_name it, i_type it).

(** Every item of every namespace has had its ['name'] set. *)
Definition is_named (it : item) : bool :=
  match i_name it with Some _ => true | None => false end.
Definition all_named (namespaces : list namespace) : bool :=
  forallb (λ ns, forallb is_named (ns_items ns)) namespaces.

(** Where the scan re-parents [it], and the child record it appends there. *)
Definition nesting (items : list item) (it : item) : option (nat * item) :=
  n ← i_name it;
  '(parent_name, child_name) ← rsplit_dot n;
  j ← find_parent parent_name items;
  Some (j, Item (i_uid it) (Some child_name) (i_type it) None).

(** The children appended to position [j] by the first [k] turns. *)
Definition kids (items : list item) (k j : nat) : list item :=
  omap (λ it, '(j', child) ← nesting items it;
              if decide (j' = j) then Some child else None)
       (take k items).

(** The names marked as nested by the first [k] turns. *)
Definition marked (items : list item) (k : nat) : list string :=
  omap (λ it, _ ← nesting items it; i_name it) (take k items).

Definition with_children (l : list item) (p : item) : item :=
  match l with
  | [] => p
  | _ => Item (i_uid p) (i_name p) (i_type p) (Some (default [] (i_children p) ++ l))
  end.

(** The item list after the first [k] turns of the scan. *)
Definition scanned (items : list item) (k : nat) : list item :=
  imap (λ j p, with_children (kids items k j) p) items.

Definition nested_namespace (ns : namespace) : namespace :=
  let items := ns_items ns in
  let n := length items in
  set_ns_items
    (filter (λ it, ¬ is_nested (list_to_set (marked items n)) it)
            (scanned items n))
    ns.

(** A name that the scan re-parents in [items]: it has a dot and the text
    before its last dot is the name of some item. *)
Definition reparented (items : list item) (n : string) : bool :=
  match rsplit_dot n with
  | Some (parent_name, _) => bool_decide (is_Some (find_parent parent_name items))
  | None => false
  end.

(** The fields of a namespace other than its items. *)
Definition ns_header (ns : namespace) : string * option string * option string :=
  (ns_uid ns, ns_name ns, ns_type ns).

(** ** Sample documents *)

(** A namespace [N1] with a class [Widget] and its inner class. *)
Definition widget_toc : string :=
  text ["### YamlMime:TableOfContent"; "items:";
        "- uid: N1"; "  name: N1"; "  type: Namespace"; "  items:";
        "  - uid: a"; "    name: Widget"; "    type: Class";
        "  - uid: b"; "    name: Widget.Inner"; "    type: Class"].

Definition widget_forest : list namespace :=
  [Namespace "N1" (Some "N1") (Some "Namespace")
     [Item "a" (Some "Widget") (Some "Class") None;
      Item "b" (Some "Widget.Inner") (Some "Class") None]].

(** Three levels of names in one namespace. *)
Definition abc_items : list item :=
  [Item "a" (Some "A") (Some "Class") None;
   Item "b" (Some "A.B") (Some "Class") None;
   Item "c" (Some "A.B.C") (Some "Struct") None].

Definition abc_forest : list namespace :=
  [Namespace "N" (Some "N") (Some "Namespace") abc_items].

(** An item entry that no name line follows. *)
Definition unnamed_toc : string :=
  text ["### YamlMime:TableOfContent"; "items:";
        "- uid: N1"; "  name: N1"; "  type: Namespace"; "  items:";
        "  - uid: a"].

Definition unnamed_forest : list namespace :=
  [Namespace "N1" (Some "N1") (Some "Namespace") [Item "a" None None None]].

(** A dotted name whose parent is not listed, next to a plain name. *)
Definition orphan_forest : list namespace :=
  [Namespace "N1" (Some "N1") (Some "Namespace")
     [Item "a" (Some "Plain") (Some "Class") None;
      Item "b" (Some "Foo.Bar") (Some "Enum") None]].

(** An item entry before any namespace entry. *)
Definition orphan_toc : string :=
  text ["### YamlMime:TableOfContent"; "items:"; "  - uid: x"; "    name: X"].

(** An item entry with its fields given twice. *)
Definition renamed_toc : string :=
  text ["### YamlMime:TableOfContent"; "items:";
        "- uid: N1"; "  name: N1"; "  type: Namespace"; "  items:";
        "  - uid: a"; "    name: First"; "    type: Class";
        "    name: Second"; "    type: Struct"].

(** ** The lines the parser acts on *)

(** The value that [parse_toc] reads from a line for the key [key]. *)
Definition field_value (key line : string) : string :=
  strip (remove key (strip line)).

(** A line that starts a namespace, and a line that starts an item. *)
Definition is_ns_line (line : string) : bool :=
  startswith (strip line) "- uid:" && Nat.eqb (indent_of line) 0.
Definition is_item_line (line : string) : bool :=
  startswith (strip line) "- uid:" && Nat.eqb (indent_of line) 2.

(** A line that gives the field [key] of the current item. *)
Definition is_item_field_line (key line : string) : bool :=
  startswith (strip line) key && Nat.eqb (indent_of line) 4.

(** No item entry comes before the first namespace entry. *)
Fixpoint starts_with_namespace (lines : list string) : bool :=
  match lines with
  | [] => true
  | l :: ls =>
      if is_ns_line l then true
      else if is_item_line l then false
      else starts_with_namespace ls
  end.

(** An item entry whose name is given twice in a row. *)
Definition twice_named_toc : string :=
  text ["- uid: N1"; "  - uid: a"; "    name: First"; "    name: Second"].

(** The parser after the first two lines of [twice_named_toc]. *)
Definition twice_named_state : pstate :=
  PState [] (Some (Namespace "N1" None None [Item "a" None None None])) (Some 0).

(** ** Records that survive a round trip through the writer and the parser *)

(** ['\n' in s] *)
Fixpoint has_newline (s : string) : bool :=
  match s with
  | "" => false
  | String c s' => Ascii.eqb c newline || has_newline s'
  end.

(** [pat in s], for a non-empty [pat]. *)
Fixpoint occurs (pat s : string) : bool :=
  match s with
  | "" => false
  | String c s' => startswith s pat || occurs pat s'
  end.

(** A value that the line [key value] gives back when parsed: one line, no
    white space at either end, and no text equal to [key] inside. *)
Definition plain (key v : string) : bool :=
  negb (has_newline v) && String.eqb (strip v) v && negb (occurs key v).

Definition plain_field (key : string) (o : option string) : bool :=
  match o with
  | Some v => plain key v
  | None => false
  end.

(** No text of the item or of its descendants holds a line break. *)
Fixpoint one_line_item (it : item) : bool :=
  negb (has_newline (i_uid it))
  && negb (has_newline (fmt (i_name it)))
  && negb (has_newline (fmt (i_type it)))
  && match i_children it with
     | Some cs => forallb one_line_item cs
     | None => true
     end.

Definition plain_item (it : item) : bool :=
  plain "- uid:" (i_uid it)
  && plain_field "name:" (i_name it)
  && plain_field "type:" (i_type it)
  && match i_children it with
     | Some cs => forallb one_line_item cs
     | None => true
     end.

Definition plain_namespace (ns : namespace) : bool :=
  plain "- uid:" (ns_uid ns)
  && plain_field "name:" (ns_name ns)
  && plain_field "type:" (ns_type ns)
  && forallb plain_item (ns_items ns).

(** An item as the parser builds it: no ['children'] key. *)
Definition without_children (it : item) : item :=
  Item (i_uid it) (i_name it) (i_type it) None.

Definition flattened (ns : namespace) : namespace :=
  set_ns_items (without_children <$> ns_items ns) ns.

Definition childless (it : item) : bool :=
  match i_children it with None => true | Some _ => false end.

(** What follows the key on a written line once the line is stripped. *)
Definition field_tail (v : string) : string :=
  if is_empty v then "" else " " +:+ v.

(** A nested forest: the sample after the nester has run. *)
Definition nested_widget_forest : list namespace :=
  [Namespace "N1" (Some "N1") (Some "Namespace")
     [Item "a" (Some "Widget") (Some "Class")
        (Some [Item "b" (Some "Inner") (Some "Class") None])]].

(** A line without a line break, and a line that the parser steps over. *)
Definition one_line (l : string) : Prop := has_newline l = false.
Definition ignored (l : string) : Prop := ∀ st, parse_line st l = OK st.

(** ** Further notions used in the properties *)

(** An item that the scan re-parents: its name is set and re-parented. *)
Definition moved (items : list item) (it : item) : bool :=
  match i_name it with
  | Some n => reparented items n
  | None => false
  end.

(** A namespace in which the scan re-parents nothing. *)
Definition settled (ns : namespace) : bool :=
  forallb (λ it, negb (moved (ns_items ns) it)) (ns_items ns).

(** The identifier and the kind that a child record copies. *)
Definition uid_type (it : item) : string * option string :=
  (i_uid it, i_type it).

(** A child record as the nester makes it: a name without dot, no children. *)
Definition fresh_child (c : item) : Prop :=
  i_children c = None ∧ ∃ child_name, i_name c = Some child_name ∧ has_dot child_name = false.

(** Two items named [Util], the second after the first, and [Util.Log]. *)
Definition twins_forest : list namespace :=
  [Namespace "N1" (Some "N1") (Some "Namespace")
     [Item "a" (Some "Util") (Some "Class") None;
      Item "b" (Some "Util") (Some "Struct") None;
      Item "c" (Some "Util.Log") (Some "Class") None]].

(** A line that gives the field [key] of the current namespace. *)
Definition is_ns_field_line (key line : string) : bool :=
  startswith (strip line) key && Nat.eqb (indent_of line) 2.

(** A line that the parser steps over wherever it stands: blank, header, or
    an items-list marker. *)
Definition is_inert (line : string) : bool :=
  is_empty (strip line) || startswith (strip line) "###"
  || String.eqb (strip line) "items:".

(** A text of white space only. *)
Fixpoint all_space (s : string) : bool :=
  match s with
  | "" => true
  | String c s' => isspace c && all_space s'
  end.

(** A value as the parser stores it: stripped, and on one line. *)
Definition clean_value (v : string) : bool :=
  String.eqb (strip v) v && negb (has_newline v).

Definition clean_field (o : option string) : bool :=
  match o with
  | Some v => clean_value v
  | None => true
  end.

Definition parsed_item (it : item) : bool :=
  clean_value (i_uid it) && clean_field (i_name it) && clean_field (i_type it)
  && childless it.

Definition parsed_namespace (ns : namespace) : bool :=
  clean_value (ns_uid ns) && clean_field (ns_name ns) && clean_field (ns_type ns)
  && forallb parsed_item (ns_items ns).

(** What holds of the parser's variables at every turn. *)
Definition parsed_state (st : pstate) : Prop :=
  forallb parsed_namespace (p_result st) = true
  ∧ forallb parsed_namespace (option_list (current_namespace st)) = true.

(** A flat document in which no name is re-parented. *)
Definition settled_forest : list namespace :=
  [Namespace "N1" (Some "N1") (Some "Namespace")
     [Item "a" (Some "Widget") (Some "Class") None;
      Item "b" (Some "Gadget.Part") (Some "Struct") None];
   Namespace "N2" (Some "N2") (Some "Namespace") []].

(** When the scan finds a parent for [it], that parent is not itself
    re-parented; it holds as well when no parent is found. *)
Definition parent_stays (items : list item) (it : item) : bool :=
  match i_name it with
  | Some n =>
      match rsplit_dot n with
      | Some (parent_name, _) =>
          match find_parent parent_name items with
          | Some _ => negb (reparented items parent_name)
          | None => true
          end
      | None => true
      end
  | None => true
  end.

(** The identifiers of all items, namespace after namespace. *)
Definition item_uids (namespaces : list namespace) : list string :=
  List.flat_map (λ ns, i_uid <$> ns_items ns) namespaces.

(** Two namespaces, each with several items that stay and one that moves. *)
Definition ordered_forest : list namespace :=
  [Namespace "N1" (Some "First") (Some "Namespace")
     [Item "a" (Some "Alpha") (Some "Class") None;
      Item "b" (Some "Alpha.Inner") (Some "Class") None;
      Item "c" (Some "Beta") (Some "Struct") None;
      Item "d" (Some "Gamma") (Some "Enum") None];
   Namespace "N2" (Some "Second") (Some "Namespace")
     [Item "e" (Some "Delta") (Some "Class") None;
      Item "f" (Some "Epsilon") (Some "Class") None;
      Item "g" (Some "Delta.Part") (Some "Struct") None]].

(** A dotted name without parent in the list, next to a plain name. *)
Definition deep_orphan_items : list item :=
  [Item "x" (Some "X") (Some "Class") None;
   Item "z" (Some "X.Y.Z") (Some "Class") None].

(** The text holds a carriage return. *)
Fixpoint has_carriage_return (s : string) : bool :=
  match s with
  | "" => false
  | String c s' => Ascii.eqb c carriage_return || has_carriage_return s'
  end.

(** The widget document stored with the three kinds of line ending. *)
Definition widget_toc_mixed : string :=
  "- uid: N1" +:+ String carriage_return (String newline "")
  +:+ "  name: N1" +:+ String carriage_return ""
  +:+ "  - uid: a" +:+ String newline ""
  +:+ "    name: Widget" +:+ String carriage_return (String newline "")
  +:+ "  - uid: b" +:+ String carriage_return ""
  +:+ "    name: Widget.Inner" +:+ String carriage_return "".

(** A name with a carriage return inside, in a document that is otherwise
    as the writer lays it out. *)
Definition broken_name_toc : string :=
  text ["### YamlMime:TableOfContent"; "items:";
        "- uid: N1"; "  name: N1"; "  type: Namespace"; "  items:";
        "  - uid: a";
        "    name: Wid" +:+ String carriage_return "" +:+ "get";
        "    type: Class"].

(** Two items named [Util] after another item, with children of that name
    before and after the second of them. *)
Definition namesakes_items : list item :=
  [Item "o" (Some "Other") (Some "Class") None;
   Item "a" (Some "Util") (Some "Class") None;
   Item "c" (Some "Util.Log") (Some "Class") None;
   Item "b" (Some "Util") (Some "Struct") None;
   Item "d" (Some "Util.Net") (Some "Enum") None].

Definition namesakes_forest : list namespace :=
  [Namespace "N1" (Some "N1") (Some "Namespace") namesakes_items].

(** * Properties *)

(** ** The operations on small inputs *)

Example strip_example : strip "   name: Foo  " = "name: Foo".
Proof. reflexivity. Qed.

Example remove_example : remove "name:" "name: a name:b" = " a b".
Proof. reflexivity. Qed.

Example split_lines_example :
  split_lines (text ["a"; "b"]) = ["a"; "b"; ""].
Proof. reflexivity. Qed.

Example rsplit_dot_example : rsplit_dot "A.B.C" = Some ("A.B", "C").
Proof. reflexivity. Qed.

Example indent_of_example : indent_of (String " " (String " " "  name: x")) = 4.
Proof. reflexivity. Qed.

Example parse_widget : parse_toc widget_toc = OK widget_forest.
Proof. reflexivity. Qed.

Example nest_widget : nest_items widget_forest = OK nested_widget_forest.
Proof. reflexivity. Qed.


(** ** Strings *)

Lemma app_String c s t : String c s +:+ t = String c (s +:+ t).
Proof. reflexivity. Qed.

Lemma app_empty_l t : "" +:+ t = t.
Proof. reflexivity. Qed.

Lemma rsplit_dot_None s : rsplit_dot s = None ↔ has_dot s = false.
Proof.
  induction s as [|c s IH]; simpl; [done|].
  destruct (rsplit_dot s) as [[p ch]|].
  - split; [done|]. intros [_ H]%orb_false_iff. apply IH in H. done.
  - destruct IH as [IH _]. rewrite IH by done.
    destruct (Ascii.eqb c "."); simpl; split; done.
Qed.

Lemma has_dot_rsplit_dot s : has_dot s = true → is_Some (rsplit_dot s).
Proof.
  intros H. destruct (rsplit_dot s) eqn:E; [by eexists|].
  apply rsplit_dot_None in E. congruence.
Qed.

(** [(foo + '.' + bar).rsplit('.', 1)] is [[foo, bar]] when [bar] has no dot. *)
Lemma rsplit_dot_app foo bar :
  has_dot bar = false → rsplit_dot (foo +:+ "." +:+ bar) = Some (foo, bar).
Proof.
  intros Hbar. induction foo as [|c foo IH].
  - rewrite app_empty_l, app_String, app_empty_l. simpl.
    apply rsplit_dot_None in Hbar. by rewrite Hbar.
  - rewrite app_String. simpl. by rewrite IH.
Qed.

(** ** Loops that may raise *)

Lemma for_each_app {S A} (body : S → A → result S) s l1 l2 :
  for_each body s (l1 ++ l2) = s' ← for_each body s l1; for_each body s' l2.
Proof.
  revert s. induction l1 as [|x l1 IH]; intros s; simpl; [done|].
  destruct (body s x); simpl; [apply IH|done].
Qed.

Lemma mapM_OK {A B} (f : A → result B) (g : A → B) l :
  Forall (λ x, f x = OK (g x)) l → mapM f l = OK (g <$> l).
Proof.
  induction 1 as [|x l Hx _ IH]; [done|].
  cbn. rewrite Hx. cbn. rewrite IH. done.
Qed.

(** ** The scan of the nester *)

Arguments nest_one : simpl never.

Lemma triple_with_children l p : triple (with_children l p) = triple p.
Proof. by destruct l. Qed.

Lemma with_children_snoc l c p :
  with_children (l ++ [c]) p = append_child c (with_children l p).
Proof.
  destruct l as [|x l]; [done|].
  unfold append_child; simpl. by rewrite <-(assoc_L (++)).
Qed.

Lemma find_parent_names parent_name items items' :
  i_name <$> items = i_name <$> items' →
  find_parent parent_name items = find_parent parent_name items'.
Proof.
  unfold find_parent. revert items'.
  induction items as [|x l IH]; intros [|y l'] H; simplify_eq/=; [done|].
  rewrite H. case_decide; [done|].
  specialize (IH _ H0).
  destruct (list_find _ l) as [[??]|], (list_find _ l') as [[??]|]; naive_solver.
Qed.

Lemma nesting_names items items' it it' :
  i_name <$> items = i_name <$> items' → triple it = triple it' →
  nesting items it = nesting items' it'.
Proof.
  intros Hl Ht. unfold triple in Ht. simplify_eq. unfold nesting.
  rewrite H0, H, H1.
  destruct (i_name it') as [n|]; [simpl|done].
  destruct (rsplit_dot n) as [[p c]|]; [simpl|done].
  by rewrite (find_parent_names _ _ _ Hl).
Qed.

Lemma names_scanned items k : i_name <$> scanned items k = i_name <$> items.
Proof.
  unfold scanned. rewrite fmap_imap.
  rewrite <-(imap_const i_name). apply imap_ext. intros i x _. simpl.
  by destruct (kids items k i).
Qed.

Lemma triples_scanned items k : triple <$> scanned items k = triple <$> items.
Proof.
  unfold scanned. rewrite fmap_imap.
  rewrite <-(imap_const triple). apply imap_ext. intros i x _. simpl.
  apply triple_with_children.
Qed.

Lemma scanned_0 items : scanned items 0 = items.
Proof.
  unfold scanned, kids. simpl.
  rewrite <-(list_fmap_id items) at 2. rewrite <-imap_const. by apply imap_ext.
Qed.

(** One turn of the scan on an item whose name is set. *)
Lemma nest_one_named items nested_names i it n :
  items !! i = Some it → i_name it = Some n →
  nest_one (items, nested_names) i
  = OK (match nesting items it with
        | Some (j, child) => (alter (append_child child) j items, {[ n ]} ∪ nested_names)
        | None => (items, nested_names)
        end).
Proof.
  intros Hi Hn. unfold nest_one, nesting. rewrite Hi, Hn. simpl.
  destruct (has_dot n) eqn:Hd.
  - destruct (has_dot_rsplit_dot _ Hd) as [[p c] ->]. simpl.
    by destruct (find_parent p items).
  - apply rsplit_dot_None in Hd. by rewrite Hd.
Qed.

Lemma nest_one_unnamed items nested_names i it :
  items !! i = Some it → i_name it = None →
  nest_one (items, nested_names) i = Raise TypeError.
Proof. intros Hi Hn. unfold nest_one. by rewrite Hi, Hn. Qed.

Lemma kids_S items k j it :
  items !! k = Some it →
  kids items (S k) j
  = kids items k j ++ match nesting items it with
                      | Some (j', child) => if decide (j' = j) then [child] else []
                      | None => []
                      end.
Proof.
  intros H. unfold kids. rewrite (take_S_r _ _ _ H), omap_app. f_equal. simpl.
  destruct (nesting items it) as [[j' ch]|]; simpl; [|done]. by case_decide.
Qed.

Lemma marked_S items k it :
  items !! k = Some it →
  marked items (S k)
  = marked items k ++ match nesting items it with
                      | Some _ => option_list (i_name it)
                      | None => []
                      end.
Proof.
  intros H. unfold marked. rewrite (take_S_r _ _ _ H), omap_app. f_equal. simpl.
  destruct (nesting items it) as [[j' ch]|]; simpl; [|done]. by destruct (i_name it).
Qed.

(** The state of the scan after [k] turns that met named items only. *)
Lemma scan_prefix items k :
  k ≤ length items →
  (∀ i it, i < k → items !! i = Some it → is_Some (i_name it)) →
  for_each nest_one (items, ∅) (seq 0 k)
  = OK (scanned items k, list_to_set (marked items k)).
Proof.
  intros Hk Hnamed. induction k as [|k IH].
  - simpl. by rewrite scanned_0.
  - rewrite seq_S, for_each_app.
    rewrite IH by first [lia | intros i' it' ? ?; apply (Hnamed i' it'); [lia|done]].
    simpl.
    destruct (lookup_lt_is_Some_2 items k) as [it Hit]; [lia|].
    assert (is_Some (i_name it)) as [n Hname] by (apply (Hnamed k); [lia|done]).
    assert (scanned items k !! k = Some (with_children (kids items k k) it)) as Hcur.
    { unfold scanned. by rewrite list_lookup_imap, Hit. }
    assert (i_name (with_children (kids items k k) it) = Some n) as Hcurname.
    { by destruct (kids items k k). }
    rewrite (nest_one_named _ _ _ _ _ Hcur Hcurname).
    rewrite (nesting_names _ items _ it (names_scanned items k) (triple_with_children _ it)).
    simpl. f_equal.
    rewrite (marked_S _ _ _ Hit).
    destruct (nesting items it) as [[j ch]|] eqn:E.
    + f_equal.
      * apply list_eq. intros j'. unfold scanned.
        rewrite list_lookup_alter, !list_lookup_imap.
        rewrite (kids_S _ _ _ _ Hit), E.
        destruct (decide (j = j')) as [->|Hne].
        -- destruct (items !! j'); simpl; [|done]. by rewrite with_children_snoc.
        -- by rewrite app_nil_r.
      * rewrite Hname, list_to_set_app_L, (comm_L (∪)). simpl.
        by rewrite (right_id_L ∅ (∪)).
    + rewrite app_nil_r. f_equal. unfold scanned. apply imap_ext. intros j' x _.
      by rewrite (kids_S _ _ _ _ Hit), E, app_nil_r.
Qed.

(** The scan raises [TypeError] at the first item whose name is unset. *)
Lemma scan_raises items k it :
  (∀ i it', i < k → items !! i = Some it' → is_Some (i_name it')) →
  items !! k = Some it → i_name it = None →
  for_each nest_one (items, ∅) (seq 0 (length items)) = Raise TypeError.
Proof.
  intros Hbefore Hit Hnone.
  pose proof (lookup_lt_Some _ _ _ Hit) as Hk.
  replace (length items) with (k + (1 + (length items - S k))) at 1 by lia.
  rewrite !seq_app, !for_each_app.
  rewrite scan_prefix by first [lia | done]. simpl.
  assert (scanned items k !! k = Some (with_children (kids items k k) it)) as Hcur.
  { unfold scanned. by rewrite list_lookup_imap, Hit. }
  rewrite (nest_one_unnamed _ _ _ _ Hcur); [done|].
  by destruct (kids items k k).
Qed.

(** ** One namespace *)

Lemma is_named_Some it : is_named it = true ↔ is_Some (i_name it).
Proof. unfold is_named. destruct (i_name it); split; try done; by intros [??]. Qed.

Lemma nest_namespace_named ns :
  forallb is_named (ns_items ns) = true →
  nest_namespace ns = OK (nested_namespace ns).
Proof.
  intros Hn. unfold nest_namespace, nested_namespace.
  destruct (ns_items ns) as [|x l] eqn:E.
  - destruct ns; simpl in *; by subst.
  - rewrite scan_prefix; [done|done|].
    intros i it _ Hi. apply is_named_Some.
    rewrite forallb_forall in Hn. apply Hn, list_elem_of_In, list_elem_of_lookup. eauto.
Qed.

Lemma nest_namespace_unnamed ns it :
  it ∈ ns_items ns → i_name it = None → nest_namespace ns = Raise TypeError.
Proof.
  intros Hin Hnone.
  destruct (list_find_elem_of (λ x, i_name x = None) _ _ Hin Hnone) as [[k x] Hfind].
  apply list_find_Some in Hfind as (Hk & Hx & Hbefore).
  unfold nest_namespace. destruct (ns_items ns) as [|y l] eqn:E; [done|].
  rewrite (scan_raises _ k x); [done| |done|done].
  intros i it' Hi Hit'. specialize (Hbefore i it' Hit' Hi).
  by destruct (i_name it').
Qed.

Lemma forallb_false {A} (f : A → bool) l :
  forallb f l = false → ∃ x, x ∈ l ∧ f x = false.
Proof.
  induction l as [|x l IH]; simpl; [done|].
  destruct (f x) eqn:E; simpl.
  - intros (y & ? & ?)%IH. exists y. split; [by right|done].
  - intros _. exists x. split; [by left|done].
Qed.

Lemma nest_namespace_raises ns e : nest_namespace ns = Raise e → e = TypeError.
Proof.
  intros H. destruct (forallb is_named (ns_items ns)) eqn:E.
  - by rewrite nest_namespace_named in H.
  - apply forallb_false in E as (it & Hin & Hit).
    rewrite (nest_namespace_unnamed ns it) in H; [congruence|done|].
    unfold is_named in Hit. by destruct (i_name it).
Qed.

(** ** The list of namespaces *)

Lemma nest_items_named namespaces :
  all_named namespaces = true →
  nest_items namespaces = OK (nested_namespace <$> namespaces).
Proof.
  intros H. apply mapM_OK, Forall_forall. intros ns Hns.
  apply nest_namespace_named. unfold all_named in H.
  rewrite forallb_forall in H. by apply H, list_elem_of_In.
Qed.

Lemma nest_items_unnamed namespaces ns it :
  ns ∈ namespaces → it ∈ ns_items ns → i_name it = None →
  nest_items namespaces = Raise TypeError.
Proof.
  intros Hns Hit Hnone. unfold nest_items.
  induction namespaces as [|hd l IH]; [by apply not_elem_of_nil in Hns|].
  cbn. apply elem_of_cons in Hns as [<-|Hns].
  - by rewrite (nest_namespace_unnamed ns it).
  - destruct (nest_namespace hd) as [r|e] eqn:E; cbn.
    + fold (mapM nest_namespace l). by rewrite IH.
    + by rewrite (nest_namespace_raises _ _ E).
Qed.

(** ** What stays and what moves *)

Lemma name_with_children l p : i_name (with_children l p) = i_name p.
Proof. by destruct l. Qed.

Lemma reparented_nesting items it n :
  i_name it = Some n → is_Some (nesting items it) ↔ reparented items n = true.
Proof.
  intros Hn. unfold nesting, reparented. rewrite Hn. simpl.
  destruct (rsplit_dot n) as [[p c]|]; simpl; [|split; [by intros [??]|done]].
  destruct (find_parent p items); simpl.
  - split; intros _; [done|by eexists].
  - split; [by intros [??]|done].
Qed.

Lemma elem_of_marked items n :
  n ∈ marked items (length items)
  ↔ (∃ it, it ∈ items ∧ i_name it = Some n) ∧ reparented items n = true.
Proof.
  unfold marked. rewrite take_ge by done. rewrite list_elem_of_omap. split.
  - intros (it & Hin & H). destruct (nesting items it) eqn:E; simpl in H; [|done].
    split; [by eauto|]. apply (reparented_nesting items it); [done|]. by rewrite E.
  - intros [(it & Hin & Hn) Hr]. exists it. split; [done|].
    apply (reparented_nesting items it n Hn) in Hr as [x ->]. done.
Qed.

(** The top-level items that the nester leaves in a namespace. *)
Lemma elem_of_nested_items ns x :
  x ∈ ns_items (nested_namespace ns)
  ↔ ∃ j p, ns_items ns !! j = Some p
           ∧ x = with_children (kids (ns_items ns) (length (ns_items ns)) j) p
           ∧ ∀ n, i_name p = Some n → reparented (ns_items ns) n = false.
Proof.
  unfold nested_namespace. simpl. rewrite list_elem_of_filter. split.
  - intros [Hnn Hin]. apply list_elem_of_lookup in Hin as [j Hj].
    unfold scanned in Hj. rewrite list_lookup_imap in Hj.
    destruct (ns_items ns !! j) as [p|] eqn:Hp; simplify_eq/=.
    exists j, p. split_and!; [done..|]. intros n Hn.
    destruct (reparented (ns_items ns) n) eqn:R; [|done].
    exfalso. apply Hnn. unfold is_nested. rewrite name_with_children, Hn.
    apply elem_of_list_to_set, elem_of_marked. split; [|done].
    exists p. split; [by eapply list_elem_of_lookup_2|done].
  - intros (j & p & Hp & -> & Hr). split.
    + unfold is_nested. rewrite name_with_children.
      destruct (i_name p) as [n|] eqn:Hn; [|tauto].
      intros [_ R]%elem_of_list_to_set%elem_of_marked.
      by rewrite (Hr n) in R.
    + apply list_elem_of_lookup. exists j. unfold scanned.
      by rewrite list_lookup_imap, Hp.
Qed.

Lemma nested_namespace_header ns : ns_header (nested_namespace ns) = ns_header ns.
Proof. reflexivity. Qed.

Lemma nested_namespace_sublist ns :
  triple <$> ns_items (nested_namespace ns) `sublist_of` triple <$> ns_items ns.
Proof.
  unfold nested_namespace. simpl.
  rewrite <-(triples_scanned (ns_items ns) (length (ns_items ns))).
  apply fmap_sublist, sublist_filter.
Qed.

Lemma has_dot_not_reparented items n : has_dot n = false → reparented items n = false.
Proof. intros H%rsplit_dot_None. unfold reparented. by rewrite H. Qed.

Lemma find_parent_None parent_name items :
  find_parent parent_name items = None
  ↔ Forall (λ p, i_name p ≠ Some parent_name) items.
Proof.
  unfold find_parent. rewrite fmap_None, list_find_None. done.
Qed.

Lemma find_parent_Some parent_name items j :
  find_parent parent_name items = Some j →
  ∃ p, items !! j = Some p ∧ i_name p = Some parent_name.
Proof.
  unfold find_parent. intros ([j' p] & (? & ? & _)%list_find_Some & ?)%fmap_Some.
  simplify_eq/=. eauto.
Qed.

Lemma orphan_not_reparented items foo bar :
  has_dot bar = false → Forall (λ p, i_name p ≠ Some foo) items →
  reparented items (foo +:+ "." +:+ bar) = false.
Proof.
  intros Hbar Hfoo. unfold reparented. rewrite (rsplit_dot_app _ _ Hbar).
  apply find_parent_None in Hfoo. rewrite Hfoo.
  apply bool_decide_eq_false. by intros [??].
Qed.

(** ** The writer, block by block *)

Arguments write_item : simpl never.

Lemma write_item_unfold it indent :
  write_item it indent
  = [indent_prefix indent +:+ "- uid: " +:+ i_uid it;
     indent_prefix indent +:+ "  name: " +:+ fmt (i_name it);
     indent_prefix indent +:+ "  type: " +:+ fmt (i_type it)]
    ++ match i_children it with
       | Some ((_ :: _) as cs) =>
           (indent_prefix indent +:+ "  items:")
             :: List.flat_map (λ child, write_item child (S indent)) cs
       | _ => []
       end.
Proof. by destruct it as [? ? ? [[|??]|]]. Qed.

(** The lines of a top-level item stand together in the document. *)
Lemma toc_lines_item_block namespaces k ns it :
  namespaces !! k = Some ns → it ∈ ns_items ns →
  ∃ pre post, toc_lines namespaces = pre ++ write_item it 1 ++ post.
Proof.
  intros Hk Hin. apply list_elem_of_split in Hin as (l1 & l2 & Hitems).
  exists (["### YamlMime:TableOfContent"; "items:"]
          ++ List.flat_map write_namespace (take k namespaces)
          ++ ["- uid: " +:+ ns_uid ns; "  name: " +:+ fmt (ns_name ns);
              "  type: " +:+ fmt (ns_type ns); "  items:"]
          ++ List.flat_map (λ it, write_item it 1) l1),
         (List.flat_map (λ it, write_item it 1) l2
          ++ List.flat_map write_namespace (drop (S k) namespaces)).
  unfold toc_lines. rewrite <-(take_drop_middle _ _ _ Hk) at 1.
  rewrite flat_map_app. simpl. unfold write_namespace at 2. rewrite Hitems.
  destruct l1 as [|y l1]; simpl; rewrite ?flat_map_app;
    repeat (progress (simpl; rewrite <-?(assoc_L (++)))); reflexivity.
Qed.

Lemma flat_map_concat_fmap {A B} (f : A → list B) l :
  List.flat_map f l = concat (f <$> l).
Proof. induction l as [|x l IH]; simpl; [done|]. by rewrite IH. Qed.

(** ** The nester on unnamed items *)

(** C10. The nester needs every item to have its display name set: when some
    namespace holds an item whose ['name'] is still [None] (what the parser
    leaves for an item entry that no name line follows), [nest_items] raises
    [TypeError] on the test ['.' in name]; it does not skip the item. *)
Theorem nest_items_raises_on_unnamed_item namespaces k ns i it :
  namespaces !! k = Some ns →
  ns_items ns !! i = Some it →
  i_name it = None →
  nest_items namespaces = Raise TypeError.
Proof.
  intros Hns Hit Hnone.
  apply (nest_items_unnamed namespaces ns it); [| |done];
    by eapply list_elem_of_lookup_2.
Qed.

Lemma nest_items_raises_on_unnamed_item_witness :
  parse_toc unnamed_toc = OK unnamed_forest
  ∧ nest_items unnamed_forest = Raise TypeError.
Proof.
  split; [reflexivity|].
  apply (nest_items_raises_on_unnamed_item unnamed_forest 0
           (Namespace "N1" (Some "N1") (Some "Namespace") [Item "a" None None None])
           0 (Item "a" None None None)); reflexivity.
Defined.

(** ** Order *)

(** C8. On a forest whose items all have names, the nester returns the
    namespaces in their original order, each with its identifier, name and
    kind, and the items left at the top level of a namespace are a
    subsequence of its original items; the writer then emits the namespaces,
    and within each the items, in list order. *)
Theorem nest_items_preserves_order namespaces :
  all_named namespaces = true →
  ∃ namespaces',
    nest_items namespaces = OK namespaces'
    ∧ ns_header <$> namespaces' = ns_header <$> namespaces
    ∧ Forall2 (λ ns ns', triple <$> ns_items ns' `sublist_of` triple <$> ns_items ns)
              namespaces namespaces'
    ∧ toc_lines namespaces'
      = ["### YamlMime:TableOfContent"; "items:"]
        ++ concat (write_namespace <$> namespaces')
    ∧ Forall (λ ns', ∃ fields,
                write_namespace ns'
                = fields ++ concat ((λ it, write_item it 1) <$> ns_items ns'))
             namespaces'.
Proof.
  intros Hnamed. exists (nested_namespace <$> namespaces). split_and!.
  - by apply nest_items_named.
  - rewrite <-list_fmap_compose. by apply list_fmap_ext.
  - apply Forall2_fmap_r, Forall_Forall2_diag, Forall_forall.
    intros ns _. apply nested_namespace_sublist.
  - unfold toc_lines. rewrite flat_map_concat_fmap. reflexivity.
  - apply Forall_forall. intros ns' _. unfold write_namespace.
    rewrite <-flat_map_concat_fmap.
    destruct (ns_items ns') as [|x l].
    { by exists ["- uid: " +:+ ns_uid ns'; "  name: " +:+ fmt (ns_name ns');
                 "  type: " +:+ fmt (ns_type ns')]. }
    by exists ["- uid: " +:+ ns_uid ns'; "  name: " +:+ fmt (ns_name ns');
               "  type: " +:+ fmt (ns_type ns'); "  items:"].
Qed.

Lemma nest_items_preserves_order_witness :
  all_named ordered_forest = true
  ∧ ∃ namespaces',
      nest_items ordered_forest = OK namespaces'
      ∧ ns_header <$> namespaces'
        = [("N1", Some "First", Some "Namespace");
           ("N2", Some "Second", Some "Namespace")]
      ∧ Forall2 (λ ns ns', triple <$> ns_items ns' `sublist_of` triple <$> ns_items ns)
                ordered_forest namespaces'
      ∧ toc_lines namespaces'
        = ["### YamlMime:TableOfContent"; "items:"]
          ++ concat (write_namespace <$> namespaces')
      ∧ Forall (λ ns', ∃ fields,
                  write_namespace ns'
                  = fields ++ concat ((λ it, write_item it 1) <$> ns_items ns'))
               namespaces'.
Proof.
  split; [reflexivity|].
  apply (nest_items_preserves_order ordered_forest). reflexivity.
Defined.

(** The two namespaces and the items that stay, in their order. *)
Example nest_ordered :
  nest_items ordered_forest
  = OK [Namespace "N1" (Some "First") (Some "Namespace")
          [Item "a" (Some "Alpha") (Some "Class")
             (Some [Item "b" (Some "Inner") (Some "Class") None]);
           Item "c" (Some "Beta") (Some "Struct") None;
           Item "d" (Some "Gamma") (Some "Enum") None];
        Namespace "N2" (Some "Second") (Some "Namespace")
          [Item "e" (Some "Delta") (Some "Class")
             (Some [Item "g" (Some "Part") (Some "Struct") None]);
           Item "f" (Some "Epsilon") (Some "Class") None]].
Proof. reflexivity. Qed.

(** ** Items that stay *)

(** C7. In a forest whose items all have names, an item that is not
    re-parented stays at the top level of its namespace with its identifier,
    display name and kind: this holds for an item whose name has no dot, and
    for an item named [foo.bar] (with [bar] free of dots) in a namespace where
    no item is named [foo]. *)
Theorem unparented_item_stays namespaces k ns i it n :
  all_named namespaces = true →
  namespaces !! k = Some ns →
  ns_items ns !! i = Some it →
  i_name it = Some n →
  (has_dot n = false
   ∨ ∃ foo bar, n = foo +:+ "." +:+ bar ∧ has_dot bar = false
                ∧ Forall (λ p, i_name p ≠ Some foo) (ns_items ns)) →
  ∃ namespaces' ns' it',
    nest_items namespaces = OK namespaces'
    ∧ namespaces' !! k = Some ns'
    ∧ it' ∈ ns_items ns'
    ∧ i_uid it' = i_uid it ∧ i_name it' = Some n ∧ i_type it' = i_type it.
Proof.
  intros Hnamed Hns Hit Hn Hstay.
  exists (nested_namespace <$> namespaces), (nested_namespace ns),
         (with_children (kids (ns_items ns) (length (ns_items ns)) i) it).
  split_and!.
  - by apply nest_items_named.
  - by rewrite list_lookup_fmap, Hns.
  - apply elem_of_nested_items. exists i, it. split_and!; [done..|].
    intros n' Hn'. simplify_eq.
    destruct Hstay as [Hdot|(foo & bar & -> & Hbar & Hfoo)].
    + by apply has_dot_not_reparented.
    + by apply orphan_not_reparented.
  - by destruct (kids (ns_items ns) (length (ns_items ns)) i).
  - by rewrite name_with_children.
  - by destruct (kids (ns_items ns) (length (ns_items ns)) i).
Qed.

Lemma unparented_item_stays_witness :
  (∃ namespaces' ns' it',
     nest_items orphan_forest = OK namespaces'
     ∧ namespaces' !! 0 = Some ns'
     ∧ it' ∈ ns_items ns'
     ∧ i_uid it' = "a" ∧ i_name it' = Some "Plain" ∧ i_type it' = Some "Class")
  ∧ (∃ namespaces' ns' it',
       nest_items orphan_forest = OK namespaces'
       ∧ namespaces' !! 0 = Some ns'
       ∧ it' ∈ ns_items ns'
       ∧ i_uid it' = "b" ∧ i_name it' = Some "Foo.Bar" ∧ i_type it' = Some "Enum").
Proof.
  split.
  - apply (unparented_item_stays orphan_forest 0
             (Namespace "N1" (Some "N1") (Some "Namespace")
                [Item "a" (Some "Plain") (Some "Class") None;
                 Item "b" (Some "Foo.Bar") (Some "Enum") None])
             0 (Item "a" (Some "Plain") (Some "Class") None) "Plain");
      [reflexivity..|]. left. reflexivity.
  - apply (unparented_item_stays orphan_forest 0
             (Namespace "N1" (Some "N1") (Some "Namespace")
                [Item "a" (Some "Plain") (Some "Class") None;
                 Item "b" (Some "Foo.Bar") (Some "Enum") None])
             1 (Item "b" (Some "Foo.Bar") (Some "Enum") None) "Foo.Bar");
      [reflexivity..|]. right. exists "Foo", "Bar".
    split; [reflexivity|]. split; [reflexivity|].
    repeat constructor; discriminate.
Defined.

(** ** Items that move *)

Lemma children_with_children l p :
  l ≠ [] → i_children (with_children l p) = Some (default [] (i_children p) ++ l).
Proof. by destruct l. Qed.

Lemma find_parent_elem_of parent_name items p :
  p ∈ items → i_name p = Some parent_name →
  ∃ j, find_parent parent_name items = Some j.
Proof.
  intros Hin Hp.
  destruct (list_find_elem_of (λ x, i_name x = Some parent_name) _ _ Hin Hp)
    as [[j x] Hfind].
  exists j. unfold find_parent. by rewrite Hfind.
Qed.

(** The lines of a child stand below the lines of the item that holds it. *)
Lemma write_item_child_block p indent before child after :
  i_children p = Some (before ++ child :: after) →
  write_item p indent
  = [indent_prefix indent +:+ "- uid: " +:+ i_uid p;
     indent_prefix indent +:+ "  name: " +:+ fmt (i_name p);
     indent_prefix indent +:+ "  type: " +:+ fmt (i_type p);
     indent_prefix indent +:+ "  items:"]
    ++ List.flat_map (λ c, write_item c (S indent)) before
    ++ write_item child (S indent)
    ++ List.flat_map (λ c, write_item c (S indent)) after.
Proof.
  intros Hc. rewrite (write_item_unfold p), Hc.
  destruct before as [|b before]; simpl; [done|].
  rewrite flat_map_app. simpl. by rewrite <-!(assoc_L (++)).
Qed.

(** The end-to-end run on the sample document. *)
Example pipeline_widget :
  pipeline widget_toc
  = OK (text ["### YamlMime:TableOfContent"; "items:";
              "- uid: N1"; "  name: N1"; "  type: Namespace"; "  items:";
              "  - uid: a"; "    name: Widget"; "    type: Class"; "    items:";
              "    - uid: b"; "      name: Inner"; "      type: Class"]).
Proof. reflexivity. Qed.

(** ** Three levels of names *)

(** C1. On the items [A], [A.B], [A.B.C] the scan appends the child [B] to [A]
    and the child [C] to the top-level entry of [A.B]; the filter then drops
    both [A.B] and [A.B.C] from the top level, and the child record of [A.B]
    under [A] is a copy made before [C] was appended, so the written document
    holds [A] with the child [B] and no entry for [A.B.C] at all. *)
Theorem three_levels_lose_grandchild :
  (∃ nested_names,
     for_each nest_one (abc_items, ∅) (seq 0 (length abc_items))
     = OK ([Item "a" (Some "A") (Some "Class")
              (Some [Item "b" (Some "B") (Some "Class") None]);
            Item "b" (Some "A.B") (Some "Class")
              (Some [Item "c" (Some "C") (Some "Struct") None]);
            Item "c" (Some "A.B.C") (Some "Struct") None],
           nested_names))
  ∧ nest_items abc_forest
    = OK [Namespace "N" (Some "N") (Some "Namespace")
            [Item "a" (Some "A") (Some "Class")
               (Some [Item "b" (Some "B") (Some "Class") None])]]
  ∧ (namespaces ← nest_items abc_forest; OK (write_toc namespaces))
    = OK (text ["### YamlMime:TableOfContent"; "items:";
                "- uid: N"; "  name: N"; "  type: Namespace"; "  items:";
                "  - uid: a"; "    name: A"; "    type: Class"; "    items:";
                "    - uid: b"; "      name: B"; "      type: Class"]).
Proof.
  split_and!.
  - eexists. vm_compute. reflexivity.
  - vm_compute. reflexivity.
  - vm_compute. reflexivity.
Qed.

(** C3. The namespace of the three-level sample holds an item named [A.B]
    and an item named [A.B.C], that is [foo] and [foo.bar] for [foo = A.B]
    and [bar = C].  In the nested and written output no entry is named [C]
    and none has the identifier [c] of the [A.B.C] item, and no top-level
    item is named [A.B]: the scan appends the child [C] to the top-level
    entry of [A.B], which the filter then drops, and the entry [B] under [A]
    is a copy made before. *)
Theorem child_of_nested_parent_is_lost :
  ns_items <$> abc_forest
  = [[Item "a" (Some "A") (Some "Class") None;
      Item "b" (Some "A.B") (Some "Class") None;
      Item "c" (Some ("A.B" +:+ "." +:+ "C")) (Some "Struct") None]]
  ∧ ∃ namespaces',
      nest_items abc_forest = OK namespaces'
      ∧ Forall (λ ns', Forall (λ p, i_name p ≠ Some "A.B") (ns_items ns')) namespaces'
      ∧ toc_lines namespaces'
        = ["### YamlMime:TableOfContent"; "items:";
           "- uid: N"; "  name: N"; "  type: Namespace"; "  items:";
           "  - uid: a"; "    name: A"; "    type: Class"; "    items:";
           "    - uid: b"; "      name: B"; "      type: Class"]
      ∧ Forall (λ line, strip line ≠ "name: C" ∧ strip line ≠ "- uid: c")
               (toc_lines namespaces').
Proof.
  split; [reflexivity|].
  exists [Namespace "N" (Some "N") (Some "Namespace")
            [Item "a" (Some "A") (Some "Class")
               (Some [Item "b" (Some "B") (Some "Class") None])]].
  split_and!.
  - reflexivity.
  - apply Forall_singleton, Forall_singleton. discriminate.
  - reflexivity.
  - apply Forall_forall. intros line Hline. vm_compute in Hline.
    repeat (apply elem_of_cons in Hline as [->|Hline];
            [split; vm_compute; discriminate|]).
    by apply not_elem_of_nil in Hline.
Qed.

(** ** String facts for the parser *)

Lemma startswith_app p r : startswith (p +:+ r) p = true.
Proof.
  induction p as [|c p IH]; [done|].
  rewrite app_String. simpl. by rewrite Ascii.eqb_refl.
Qed.

Lemma startswith_inv s p : startswith s p = true → ∃ r, s = p +:+ r.
Proof.
  revert s. induction p as [|c p IH]; intros s H.
  - by exists s.
  - destruct s as [|b s]; [done|]. simpl in H.
    destruct (Ascii.eqb c b) eqn:E; [|done].
    apply Ascii.eqb_eq in E as ->. destruct (IH _ H) as [r ->]. by exists r.
Qed.

Arguments parse_line : simpl never.

(** Evaluates the tests of [parse_line] on a line whose stripped text begins
    with known characters; the values read from the line are left alone. *)
Ltac parse_line_tests Hstrip :=
  set (vu := strip (remove "- uid:" (strip _)));
  set (vn := strip (remove "name:" (strip _)));
  set (vt := strip (remove "type:" (strip _)));
  rewrite Hstrip;
  cbv beta iota delta [is_empty startswith orb andb Ascii.eqb Bool.eqb
                       String.eqb Nat.eqb String.append];
  subst vu vn vt; rewrite ?Hstrip.

Ltac parse_line_eval Hstrip Hindent :=
  unfold parse_line; cbv zeta; rewrite Hindent; parse_line_tests Hstrip.

Ltac parse_line_deep Hstrip :=
  unfold parse_line; cbv zeta;
  destruct (indent_of _) as [|[|[|[|[|?]]]]]; try done;
  parse_line_tests Hstrip; try done.

Lemma parse_line_blank st line : strip line = "" → parse_line st line = OK st.
Proof. intros H. unfold parse_line. by rewrite H. Qed.

Lemma parse_line_header st line :
  startswith (strip line) "###" = true → parse_line st line = OK st.
Proof. intros H. unfold parse_line. rewrite H. by rewrite orb_true_r. Qed.

Lemma parse_line_items_marker st line :
  strip line = "items:" → parse_line st line = OK st.
Proof.
  intros H. parse_line_deep H.
Qed.

Lemma parse_line_ns_uid st line r :
  strip line = "- uid:" +:+ r → indent_of line = 0 →
  parse_line st line
  = OK (PState (p_result st ++ option_list (current_namespace st))
               (Some (Namespace (strip (remove "- uid:" ("- uid:" +:+ r))) None None []))
               None).
Proof. intros H Hi. parse_line_eval H Hi. reflexivity. Qed.

Lemma parse_line_item_uid st line r ns :
  strip line = "- uid:" +:+ r → indent_of line = 2 →
  current_namespace st = Some ns →
  parse_line st line
  = OK (PState (p_result st)
               (Some (set_ns_items
                        (ns_items ns
                         ++ [Item (strip (remove "- uid:" ("- uid:" +:+ r))) None None None])
                        ns))
               (Some (length (ns_items ns)))).
Proof. intros H Hi Hns. parse_line_eval H Hi. rewrite Hns. reflexivity. Qed.

Lemma parse_line_item_uid_orphan st line r :
  strip line = "- uid:" +:+ r → indent_of line = 2 →
  current_namespace st = None →
  parse_line st line = Raise TypeError.
Proof. intros H Hi Hns. parse_line_eval H Hi. rewrite Hns. reflexivity. Qed.

Lemma parse_line_deep_uid st line r :
  strip line = "- uid:" +:+ r → indent_of line ≠ 0 → indent_of line ≠ 2 →
  parse_line st line = OK st.
Proof.
  intros H H0 H2. parse_line_deep H.
Qed.

Lemma parse_line_ns_name st line r ns :
  strip line = "name:" +:+ r → indent_of line = 2 →
  current_namespace st = Some ns → ns_name ns = None →
  parse_line st line
  = OK (PState (p_result st)
               (Some (set_ns_name (strip (remove "name:" ("name:" +:+ r))) ns))
               (current_item st)).
Proof.
  intros H Hi Hns Hn. parse_line_eval H Hi. rewrite Hns. simpl.
  rewrite Hn. reflexivity.
Qed.

Lemma parse_line_ns_type st line r ns :
  strip line = "type:" +:+ r → indent_of line = 2 →
  current_namespace st = Some ns → ns_type ns = None →
  parse_line st line
  = OK (PState (p_result st)
               (Some (set_ns_type (strip (remove "type:" ("type:" +:+ r))) ns))
               (current_item st)).
Proof.
  intros H Hi Hns Hn. parse_line_eval H Hi. rewrite Hns. simpl.
  rewrite Hn. reflexivity.
Qed.

Lemma parse_line_item_name st line r :
  strip line = "name:" +:+ r → indent_of line = 4 →
  is_Some (current_item st) →
  parse_line st line
  = OK (update_current_item (set_i_name (strip (remove "name:" ("name:" +:+ r)))) st).
Proof.
  intros H Hi Hit. parse_line_eval H Hi.
  by rewrite bool_decide_eq_true_2.
Qed.

Lemma parse_line_item_type st line r :
  strip line = "type:" +:+ r → indent_of line = 4 →
  is_Some (current_item st) →
  parse_line st line
  = OK (update_current_item (set_i_type (strip (remove "type:" ("type:" +:+ r)))) st).
Proof.
  intros H Hi Hit. parse_line_eval H Hi.
  by rewrite bool_decide_eq_true_2.
Qed.

Lemma parse_line_deep_name st line r :
  strip line = "name:" +:+ r → indent_of line ≠ 2 → indent_of line ≠ 4 →
  parse_line st line = OK st.
Proof.
  intros H H2 H4. parse_line_deep H.
Qed.

Lemma parse_line_deep_type st line r :
  strip line = "type:" +:+ r → indent_of line ≠ 2 → indent_of line ≠ 4 →
  parse_line st line = OK st.
Proof.
  intros H H2 H4. parse_line_deep H.
Qed.

(** ** Namespaces are never dropped *)

Lemma parse_line_ns st line :
  is_ns_line line = true →
  parse_line st line
  = OK (PState (p_result st ++ option_list (current_namespace st))
               (Some (Namespace (field_value "- uid:" line) None None []))
               None).
Proof.
  unfold is_ns_line. intros [Hs Hi]%andb_prop.
  apply startswith_inv in Hs as [r Hs]. apply Nat.eqb_eq in Hi.
  rewrite (parse_line_ns_uid _ _ r Hs Hi). unfold field_value. by rewrite Hs.
Qed.

Lemma parse_line_orphan st line :
  is_item_line line = true → current_namespace st = None →
  parse_line st line = Raise TypeError.
Proof.
  unfold is_item_line. intros [Hs Hi]%andb_prop Hns.
  apply startswith_inv in Hs as [r Hs]. apply Nat.eqb_eq in Hi.
  by apply (parse_line_item_uid_orphan _ _ r).
Qed.

(** What a line that starts no namespace can do. *)
Lemma parse_line_not_ns st line :
  is_ns_line line = false →
  match parse_line st line with
  | OK st' =>
      p_result st' = p_result st
      ∧ ns_uid <$> current_namespace st' = ns_uid <$> current_namespace st
  | Raise e =>
      e = TypeError ∧ current_namespace st = None ∧ is_item_line line = true
  end.
Proof.
  unfold is_ns_line, is_item_line, parse_line. intros Hns. cbv zeta. rewrite Hns.
  repeat lazymatch goal with
         | |- match (if ?b then _ else _) with _ => _ end => destruct b eqn:?
         end;
    try done.
  all: unfold update_current_item; destruct st as [res [cur|] [i|]]; done.
Qed.

Lemma parse_lines_uids st lines :
  is_Some (current_namespace st) ∨ starts_with_namespace lines = true →
  ∃ st', parse_lines st lines = OK st'
         ∧ ns_uid <$> parse_finish st'
           = (ns_uid <$> parse_finish st)
             ++ (field_value "- uid:" <$> List.filter is_ns_line lines).
Proof.
  revert st. induction lines as [|l ls IH]; intros st Hst.
  - exists st. split; [done|]. simpl. by rewrite app_nil_r.
  - unfold parse_lines in *. simpl in *. destruct (is_ns_line l) eqn:Hl.
    + rewrite (parse_line_ns _ _ Hl). simpl.
      edestruct IH as (st' & -> & Huids); [by left; eexists|].
      exists st'. split; [done|]. rewrite Huids. unfold parse_finish. simpl.
      rewrite !fmap_app. simpl. by rewrite <-!(assoc_L (++)).
    + pose proof (parse_line_not_ns st l Hl) as Hline.
      destruct (parse_line st l) as [st1|e]; simpl.
      * destruct Hline as [Hres Hcur].
        edestruct (IH st1) as (st' & -> & Huids).
        { destruct Hst as [[ns Hns]|Hst].
          - left. rewrite Hns in Hcur. destruct (current_namespace st1); [by eexists|done].
          - right. by destruct (is_item_line l). }
        exists st'. split; [done|]. rewrite Huids. f_equal.
        unfold parse_finish. rewrite !fmap_app, Hres. f_equal.
        destruct (current_namespace st1), (current_namespace st); simplify_eq/=; by f_equal.
      * destruct Hline as (_ & Hnone & Hitem).
        rewrite Hitem in Hst. destruct Hst as [[ns Hns]|?]; congruence.
Qed.

(** C9. When no item entry comes before the first namespace entry, the parser
    returns, and its result has one record for each ['- uid:'] line at
    indentation 0, in order, with the identifier read from that line: the
    namespace still in progress at the end of the input is appended too. *)
Theorem parse_toc_keeps_every_namespace content :
  starts_with_namespace (split_lines content) = true →
  ∃ namespaces,
    parse_toc content = OK namespaces
    ∧ ns_uid <$> namespaces
      = field_value "- uid:" <$> List.filter is_ns_line (split_lines content).
Proof.
  intros H. unfold parse_toc.
  destruct (parse_lines_uids parse_init (split_lines content)) as (st & -> & Huids);
    [by right|].
  by exists (parse_finish st).
Qed.

Lemma parse_toc_keeps_every_namespace_witness :
  starts_with_namespace
    (split_lines (text ["- uid: N1"; "  name: One"; "- uid: N2"; "  name: Two"])) = true
  ∧ ∃ namespaces,
      parse_toc (text ["- uid: N1"; "  name: One"; "- uid: N2"; "  name: Two"])
      = OK namespaces
      ∧ ns_uid <$> namespaces
        = field_value "- uid:"
          <$> List.filter is_ns_line
                (split_lines (text ["- uid: N1"; "  name: One"; "- uid: N2"; "  name: Two"])).
Proof.
  split; [reflexivity|].
  apply (parse_toc_keeps_every_namespace
           (text ["- uid: N1"; "  name: One"; "- uid: N2"; "  name: Two"])).
  reflexivity.
Defined.

Example parse_two_namespaces :
  parse_toc (text ["- uid: N1"; "  name: One"; "- uid: N2"; "  name: Two"])
  = OK [Namespace "N1" (Some "One") None []; Namespace "N2" (Some "Two") None []].
Proof. reflexivity. Qed.

(** ** An item entry before any namespace *)

(** C6. The parser is not total: an item entry at indentation 2 that no
    namespace entry precedes makes it raise [TypeError] on
    [current_namespace['items']], [current_namespace] still being [None]. *)
Theorem parse_toc_raises_on_orphan_item :
  parse_toc (String " " (String " " "- uid: x")) = Raise TypeError
  ∧ parse_toc orphan_toc = Raise TypeError.
Proof. split; reflexivity. Qed.

(** ** Fields given more than once *)

Lemma alter_insert {A} (f : A → A) (l : list A) i x :
  l !! i = Some x → alter f i l = <[i := f x]> l.
Proof.
  intros H. apply list_eq. intros j.
  rewrite list_lookup_alter, list_lookup_insert.
  destruct (decide (i = j)) as [->|Hne].
  - rewrite H. simpl. rewrite decide_True; [done|].
    split; [done|]. by eapply lookup_lt_Some.
  - rewrite decide_False; [done|]. by intros [? _].
Qed.

Lemma update_current_item_at f st ns i it :
  current_namespace st = Some ns → current_item st = Some i →
  ns_items ns !! i = Some it →
  update_current_item f st
  = PState (p_result st) (Some (set_ns_items (<[i := f it]> (ns_items ns)) ns)) (Some i).
Proof.
  intros Hns Hi Hit. unfold update_current_item. rewrite Hns, Hi.
  by rewrite (alter_insert _ _ _ _ Hit).
Qed.

Lemma parse_line_item_field_name st line :
  is_item_field_line "name:" line = true → is_Some (current_item st) →
  parse_line st line
  = OK (update_current_item (set_i_name (field_value "name:" line)) st).
Proof.
  unfold is_item_field_line. intros [Hs Hi]%andb_prop Hit.
  apply startswith_inv in Hs as [r Hs]. apply Nat.eqb_eq in Hi.
  rewrite (parse_line_item_name _ _ r Hs Hi Hit). unfold field_value. by rewrite Hs.
Qed.

Lemma parse_line_item_field_type st line :
  is_item_field_line "type:" line = true → is_Some (current_item st) →
  parse_line st line
  = OK (update_current_item (set_i_type (field_value "type:" line)) st).
Proof.
  unfold is_item_field_line. intros [Hs Hi]%andb_prop Hit.
  apply startswith_inv in Hs as [r Hs]. apply Nat.eqb_eq in Hi.
  rewrite (parse_line_item_type _ _ r Hs Hi Hit). unfold field_value. by rewrite Hs.
Qed.

(** A run of lines that all set the same field of the current item: the
    field ends with the value of the last line. *)
Lemma parse_lines_same_field key (set : string → item → item) :
  (∀ v v' it, set v' (set v it) = set v' it) →
  (∀ st line, is_item_field_line key line = true → is_Some (current_item st) →
              parse_line st line = OK (update_current_item (set (field_value key line)) st)) →
  ∀ lines last_line st ns i it,
    current_namespace st = Some ns → current_item st = Some i →
    ns_items ns !! i = Some it →
    forallb (is_item_field_line key) (lines ++ [last_line]) = true →
    parse_lines st (lines ++ [last_line])
    = OK (PState (p_result st)
                 (Some (set_ns_items
                          (<[i := set (field_value key last_line) it]> (ns_items ns)) ns))
                 (Some i)).
Proof.
  intros Hset Hline lines last_line.
  induction lines as [|l lines IH]; intros st ns i it Hns Hi Hit Hall;
    unfold parse_lines in *; simpl in *; apply andb_prop in Hall as [Hl Hall].
  - rewrite Hline by (by rewrite ?Hi). simpl.
    by rewrite (update_current_item_at _ _ _ _ _ Hns Hi Hit).
  - rewrite Hline by (by rewrite ?Hi). simpl.
    rewrite (update_current_item_at _ _ _ _ _ Hns Hi Hit).
    erewrite IH; [|done|done| |done]; simpl.
    + by rewrite list_insert_insert_eq, Hset.
    + apply list_lookup_insert_eq. by eapply lookup_lt_Some.
Qed.

(** A run of lines at indentation 4 that give the name of the current item:
    each one overwrites it, and after the run the display name is the value
    of the last one; the same holds for the kind tag. *)
Lemma item_field_last_wins st ns i it lines last_line :
  current_namespace st = Some ns →
  current_item st = Some i →
  ns_items ns !! i = Some it →
  (forallb (is_item_field_line "name:") (lines ++ [last_line]) = true →
   parse_lines st (lines ++ [last_line])
   = OK (PState (p_result st)
                (Some (set_ns_items
                         (<[i := set_i_name (field_value "name:" last_line) it]>
                            (ns_items ns)) ns))
                (Some i)))
  ∧ (forallb (is_item_field_line "type:") (lines ++ [last_line]) = true →
     parse_lines st (lines ++ [last_line])
     = OK (PState (p_result st)
                  (Some (set_ns_items
                           (<[i := set_i_type (field_value "type:" last_line) it]>
                              (ns_items ns)) ns))
                  (Some i))).
Proof.
  intros Hns Hi Hit. split; intros Hall.
  - by apply (parse_lines_same_field "name:" set_i_name
                (λ _ _ _, eq_refl) parse_line_item_field_name).
  - by apply (parse_lines_same_field "type:" set_i_type
                (λ _ _ _, eq_refl) parse_line_item_field_type).
Qed.

(** C4. For an item the first occurrence does not win.  On an item entry
    followed by the lines [name: First] and [name: Second] at indentation 4
    the parser returns the name [Second]; with two kind lines as well, the
    kind read is that of the last one.  The branches for the name and the
    kind of a namespace test that the field is still unset, and keep the
    first value on the same lines at indentation 2; the branches for an item
    test only that there is a current item. *)
Theorem item_field_first_wins_fails :
  parse_toc twice_named_toc
  = OK [Namespace "N1" None None [Item "a" (Some "Second") None None]]
  ∧ parse_toc twice_named_toc
    ≠ OK [Namespace "N1" None None [Item "a" (Some "First") None None]]
  ∧ parse_toc renamed_toc
    = OK [Namespace "N1" (Some "N1") (Some "Namespace")
            [Item "a" (Some "Second") (Some "Struct") None]]
  ∧ parse_toc (text ["- uid: N1"; "  name: First"; "  type: Class";
                     "  name: Second"; "  type: Struct"])
    = OK [Namespace "N1" (Some "First") (Some "Class") []].
Proof. split_and!; [reflexivity|discriminate|reflexivity|reflexivity]. Qed.

(** For a namespace the first occurrence does win. *)
Example namespace_field_first_wins :
  parse_toc (text ["- uid: N1"; "  name: First"; "  name: Second"])
  = OK [Namespace "N1" (Some "First") None []].
Proof. reflexivity. Qed.

(** ** The driver *)

(** C5 (as the code has it). When the file does not exist, [main] ends with
    [sys.exit(1)], its message goes to the standard output through [print],
    nothing is written to the error stream, and no file is created. *)
Theorem main_missing_file toc_path w :
  w_file w = None →
  main toc_path w
  = (SysExit 1,
     World None (w_stdout w ++ ["Error: " +:+ toc_path +:+ " not found"]) (w_stderr w))
  ∧ exit_status (main toc_path w).1 = 1.
Proof. intros H. unfold main, print. rewrite H. done. Qed.

Lemma main_missing_file_witness :
  main "Documentation/api/toc.yml" (World None [] [])
  = (SysExit 1, World None ["Error: Documentation/api/toc.yml not found"] [])
  ∧ exit_status (main "Documentation/api/toc.yml" (World None [] [])).1 = 1.
Proof.
  apply (main_missing_file "Documentation/api/toc.yml" (World None [] [])).
  reflexivity.
Defined.

(** The message about the missing file does not reach the error stream. *)
Lemma missing_file_message_on_stdout :
  w_stderr (main "Documentation/api/toc.yml" (World None [] [])).2 = []
  ∧ w_stdout (main "Documentation/api/toc.yml" (World None [] [])).2
    = ["Error: Documentation/api/toc.yml not found"].
Proof. split; reflexivity. Qed.

(** A run on an existing file that parses and nests overwrites the file and
    prints two messages. *)
Example main_widget :
  main "toc.yml" (World (Some widget_toc) [] [])
  = (Returned,
     World (Some (text ["### YamlMime:TableOfContent"; "items:";
                        "- uid: N1"; "  name: N1"; "  type: Namespace"; "  items:";
                        "  - uid: a"; "    name: Widget"; "    type: Class";
                        "    items:";
                        "    - uid: b"; "      name: Inner"; "      type: Class"]))
           ["Processing toc.yml..."; "TOC restructured successfully!"] []).
Proof. reflexivity. Qed.

(** ** Writing and reading back: strings *)

Lemma str_app_assoc a b c : (a +:+ b) +:+ c = a +:+ b +:+ c.
Proof. induction a as [|x a IH]; [done|]. rewrite !app_String. by rewrite IH. Qed.

Lemma len_app a b : len (a +:+ b) = len a + len b.
Proof. induction a as [|x a IH]; [done|]. rewrite app_String. simpl. by rewrite IH. Qed.

Lemma len_lstrip s : len (lstrip s) ≤ len s.
Proof. induction s as [|c s IH]; simpl; [done|]. destruct (isspace c); simpl; lia. Qed.

Lemma len_rstrip s : len (rstrip s) ≤ len s.
Proof.
  induction s as [|c s IH]; simpl; [done|].
  destruct (isspace c && is_empty (rstrip s)); simpl; lia.
Qed.

Lemma lstrip_fixed s : len (lstrip s) = len s → lstrip s = s.
Proof.
  destruct s as [|c s]; simpl; [done|].
  destruct (isspace c); [|done]. pose proof (len_lstrip s). lia.
Qed.

Lemma rstrip_fixed s : len (rstrip s) = len s → rstrip s = s.
Proof.
  induction s as [|c s IH]; simpl; [done|].
  destruct (isspace c && is_empty (rstrip s)); simpl; [done|].
  intros H. rewrite IH; [done|lia].
Qed.

Lemma strip_fixed s : strip s = s → lstrip s = s ∧ rstrip s = s.
Proof.
  unfold strip. intros H.
  pose proof (len_lstrip s). pose proof (len_rstrip (lstrip s)).
  assert (lstrip s = s) as Hl by (apply lstrip_fixed; rewrite H in *; lia).
  split; [done|]. by rewrite Hl in H.
Qed.

Lemma lstrip_indent n s : lstrip (indent_prefix n +:+ s) = lstrip s.
Proof. induction n as [|n IH]; [done|]. simpl. rewrite str_app_assoc. apply IH. Qed.

Lemma len_indent n s : len (indent_prefix n +:+ s) = 2 * n + len s.
Proof.
  induction n as [|n IH]; [done|]. simpl indent_prefix. rewrite str_app_assoc.
  rewrite !app_String, app_empty_l. simpl. rewrite IH. lia.
Qed.

Lemma indent_of_indent n s : indent_of (indent_prefix n +:+ s) = 2 * n + indent_of s.
Proof.
  unfold indent_of. rewrite lstrip_indent, len_indent.
  pose proof (len_lstrip s). lia.
Qed.

Lemma strip_indent n s : strip (indent_prefix n +:+ s) = strip s.
Proof. unfold strip. by rewrite lstrip_indent. Qed.

(** A line that the writer makes from a key and a value, stripped. *)
Lemma strip_uid_line v : strip ("- uid: " +:+ v) = "- uid:" +:+ field_tail (rstrip v).
Proof. unfold strip, field_tail. rewrite !app_String, !app_empty_l. simpl. by destruct (rstrip v). Qed.

Lemma strip_name_line v : strip ("  name: " +:+ v) = "name:" +:+ field_tail (rstrip v).
Proof. unfold strip, field_tail. rewrite !app_String, !app_empty_l. simpl. by destruct (rstrip v). Qed.

Lemma strip_type_line v : strip ("  type: " +:+ v) = "type:" +:+ field_tail (rstrip v).
Proof. unfold strip, field_tail. rewrite !app_String, !app_empty_l. simpl. by destruct (rstrip v). Qed.

Lemma indent_of_uid_line v : indent_of ("- uid: " +:+ v) = 0.
Proof. unfold indent_of. rewrite !app_String. simpl. lia. Qed.

Lemma indent_of_name_line v : indent_of ("  name: " +:+ v) = 2.
Proof. unfold indent_of. rewrite !app_String. simpl. lia. Qed.

Lemma indent_of_type_line v : indent_of ("  type: " +:+ v) = 2.
Proof. unfold indent_of. rewrite !app_String. simpl. lia. Qed.

(** Removing a key that does not occur changes nothing. *)
Lemma remove_absent pat s : occurs pat s = false → remove pat s = s.
Proof.
  unfold remove. induction s as [|c s IH]; [done|].
  intros [H1 H2]%orb_false_iff. cbn [remove_go]. rewrite H1. by rewrite IH.
Qed.

Lemma remove_cons pat a s :
  startswith (String a s) pat = false →
  remove pat (String a s) = String a (remove pat s).
Proof. intros H. unfold remove. cbn [remove_go]. by rewrite H. Qed.

Lemma remove_go_skip pat a t : remove_go pat (len a) (a +:+ t) = remove_go pat 0 t.
Proof. induction a as [|c a IH]; [done|]. rewrite app_String. simpl. apply IH. Qed.

Lemma remove_prefix c p t :
  remove (String c p) (String c p +:+ t) = remove (String c p) t.
Proof.
  unfold remove. rewrite app_String. cbn [remove_go].
  rewrite <-app_String, startswith_app. simpl. apply remove_go_skip.
Qed.

Lemma plain_inv key v :
  plain key v = true →
  has_newline v = false ∧ lstrip v = v ∧ rstrip v = v ∧ occurs key v = false.
Proof.
  unfold plain. intros [[H1 H2]%andb_prop H3]%andb_prop.
  apply negb_true_iff in H1, H3. apply String.eqb_eq, strip_fixed in H2 as [??].
  done.
Qed.

(** The value read back from a written line. *)
Lemma value_of_line c p v :
  isspace c = false → c ≠ " "%char →
  plain (String c p) v = true →
  strip (remove (String c p) (String c p +:+ field_tail (rstrip v))) = v.
Proof.
  intros Hc Hsp (Hnl & Hl & Hr & Hocc)%plain_inv.
  rewrite remove_prefix, Hr. unfold field_tail.
  destruct v as [|x v]; [done|]. cbn [is_empty].
  rewrite app_String, app_empty_l.
  rewrite remove_cons.
  - rewrite remove_absent by done. unfold strip.
    change (lstrip (String " " (String x v))) with (lstrip (String x v)).
    by rewrite Hl.
  - cbn [startswith]. destruct (Ascii.eqb c " ") eqn:E; [|done].
    by apply Ascii.eqb_eq in E.
Qed.

(** ** Writing and reading back: lines *)

Lemma has_newline_app a b : has_newline (a +:+ b) = has_newline a || has_newline b.
Proof.
  induction a as [|x a IH]; [done|]. rewrite app_String. simpl.
  by rewrite IH, orb_assoc.
Qed.

Lemma has_newline_indent n : has_newline (indent_prefix n) = false.
Proof. induction n as [|n IH]; [done|]. simpl. by rewrite has_newline_app, IH. Qed.

Lemma split_lines_line x rest :
  has_newline x = false →
  split_lines (x +:+ String newline rest) = x :: split_lines rest.
Proof.
  induction x as [|c x IH]; intros H.
  - done.
  - simpl in H. apply orb_false_iff in H as [Hc Hx].
    rewrite app_String. simpl. rewrite Hc, (IH Hx). done.
Qed.

Lemma split_lines_text x ls :
  Forall (λ l, has_newline l = false) (x :: ls) →
  split_lines (text (x :: ls)) = (x :: ls) ++ [""].
Proof.
  revert x. induction ls as [|y ls IH]; intros x Hall.
  - unfold text. simpl. rewrite split_lines_line; [done|]. by inversion Hall.
  - inversion Hall as [|?? Hx Hrest]; subst. unfold text in *.
    change (join_lines (x :: y :: ls)) with (x +:+ String newline (join_lines (y :: ls))).
    rewrite str_app_assoc, app_String, split_lines_line by done.
    by rewrite IH.
Qed.

(** Induction on an item and, inside it, on its children. *)
Lemma item_ind_nested (P : item → Prop) :
  (∀ u n t, P (Item u n t None)) →
  (∀ u n t cs, Forall P cs → P (Item u n t (Some cs))) →
  ∀ it, P it.
Proof.
  intros Hleaf Hnode. fix IH 1. intros [u n t [cs|]]; [|apply Hleaf].
  apply Hnode. induction cs as [|c cs IHcs]; constructor; [apply IH|apply IHcs].
Qed.

Lemma one_line_flat_map {A} (f : A → list string) l :
  Forall (λ x, Forall one_line (f x)) l → Forall one_line (List.flat_map f l).
Proof. induction 1; simpl; [done|]. by apply Forall_app. Qed.

Lemma write_item_one_line it :
  ∀ n, one_line_item it = true → Forall one_line (write_item it n).
Proof.
  induction it as [u nm t|u nm t cs IH] using item_ind_nested; intros n H;
    rewrite write_item_unfold; simpl in *;
    repeat (apply andb_prop in H as [H ?]);
    apply negb_true_iff in H;
    repeat match goal with Hx : negb _ = true |- _ => apply negb_true_iff in Hx end.
  - repeat constructor; unfold one_line;
      rewrite !has_newline_app, has_newline_indent; simpl; by rewrite ?H, ?H0, ?H1.
  - do 3 (constructor;
          [unfold one_line; rewrite !has_newline_app, has_newline_indent; simpl;
           by rewrite ?H, ?H0, ?H1, ?H2|]).
    destruct cs as [|c cs]; [done|]. constructor.
    { unfold one_line. by rewrite has_newline_app, has_newline_indent. }
    apply one_line_flat_map. rewrite Forall_forall in IH.
    apply Forall_forall. intros x Hx. apply IH; [done|].
    match goal with Hc : forallb _ _ = true |- _ =>
      rewrite forallb_forall in Hc; apply Hc, list_elem_of_In, Hx end.
Qed.

Lemma plain_one_line key v : plain key v = true → has_newline v = false.
Proof. by intros (? & _)%plain_inv. Qed.

Lemma plain_field_inv key o :
  plain_field key o = true → ∃ v, o = Some v ∧ plain key v = true.
Proof. destruct o as [v|]; [by exists v|done]. Qed.

Lemma plain_item_one_line it : plain_item it = true → one_line_item it = true.
Proof.
  destruct it as [u n t cs]. unfold plain_item. simpl.
  intros [[[Hu Hn]%andb_prop Ht]%andb_prop Hc]%andb_prop.
  apply plain_field_inv in Hn as (n' & -> & Hn), Ht as (t' & -> & Ht). simpl.
  by rewrite (plain_one_line _ _ Hu), (plain_one_line _ _ Hn), (plain_one_line _ _ Ht), Hc.
Qed.

Lemma toc_lines_one_line namespaces :
  forallb plain_namespace namespaces = true → Forall one_line (toc_lines namespaces).
Proof.
  intros H. unfold toc_lines. apply Forall_app. split; [by repeat constructor|].
  apply one_line_flat_map, Forall_forall. intros ns Hns.
  rewrite forallb_forall in H. apply list_elem_of_In, H in Hns.
  unfold plain_namespace in Hns.
  apply andb_prop in Hns as [[[Hu Hn]%andb_prop Ht]%andb_prop Hitems].
  apply plain_field_inv in Hn as (n' & Hn' & Hn), Ht as (t' & Ht' & Ht).
  unfold write_namespace. rewrite Hn', Ht'. simpl fmt.
  apply Forall_app. split.
  - repeat constructor; unfold one_line; rewrite has_newline_app; simpl;
      by rewrite ?(plain_one_line _ _ Hu), ?(plain_one_line _ _ Hn), ?(plain_one_line _ _ Ht).
  - destruct (ns_items ns) as [|x l] eqn:E; [done|]. constructor; [done|].
    apply one_line_flat_map, Forall_forall. intros it Hit.
    apply write_item_one_line, plain_item_one_line.
    rewrite forallb_forall in Hitems. by apply Hitems, list_elem_of_In.
Qed.

(** ** Writing and reading back: entries below the items are stepped over *)

Lemma parse_lines_cons st l ls :
  parse_lines st (l :: ls) = st' ← parse_line st l; parse_lines st' ls.
Proof. reflexivity. Qed.

Lemma parse_lines_app st l1 l2 :
  parse_lines st (l1 ++ l2) = st' ← parse_lines st l1; parse_lines st' l2.
Proof. apply for_each_app. Qed.

Lemma parse_lines_ignored lines st : Forall ignored lines → parse_lines st lines = OK st.
Proof.
  induction 1 as [|l ls Hl _ IH]; [done|]. by rewrite parse_lines_cons, Hl.
Qed.

Lemma ignored_flat_map {A} (f : A → list string) l :
  Forall (λ x, Forall ignored (f x)) l → Forall ignored (List.flat_map f l).
Proof. induction 1; simpl; [done|]. by apply Forall_app. Qed.

Lemma ignored_deep_uid n v : 2 ≤ n → ignored (indent_prefix n +:+ "- uid: " +:+ v).
Proof.
  intros Hn st. apply (parse_line_deep_uid _ _ (field_tail (rstrip v))).
  - by rewrite strip_indent, strip_uid_line.
  - rewrite indent_of_indent, indent_of_uid_line. lia.
  - rewrite indent_of_indent, indent_of_uid_line. lia.
Qed.

Lemma ignored_deep_name n v : 2 ≤ n → ignored (indent_prefix n +:+ "  name: " +:+ v).
Proof.
  intros Hn st. apply (parse_line_deep_name _ _ (field_tail (rstrip v))).
  - by rewrite strip_indent, strip_name_line.
  - rewrite indent_of_indent, indent_of_name_line. lia.
  - rewrite indent_of_indent, indent_of_name_line. lia.
Qed.

Lemma ignored_deep_type n v : 2 ≤ n → ignored (indent_prefix n +:+ "  type: " +:+ v).
Proof.
  intros Hn st. apply (parse_line_deep_type _ _ (field_tail (rstrip v))).
  - by rewrite strip_indent, strip_type_line.
  - rewrite indent_of_indent, indent_of_type_line. lia.
  - rewrite indent_of_indent, indent_of_type_line. lia.
Qed.

Lemma ignored_items_marker n : ignored (indent_prefix n +:+ "  items:").
Proof. intros st. apply parse_line_items_marker. by rewrite strip_indent. Qed.

(** Every line of an entry written two levels deep or deeper is stepped over. *)
Lemma write_item_ignored it : ∀ n, 2 ≤ n → Forall ignored (write_item it n).
Proof.
  induction it as [u nm t|u nm t cs IH] using item_ind_nested; intros n Hn;
    rewrite write_item_unfold; simpl i_children; simpl i_uid.
  - rewrite app_nil_r.
    repeat constructor; auto using ignored_deep_uid, ignored_deep_name, ignored_deep_type.
  - apply Forall_app. split.
    + repeat constructor; auto using ignored_deep_uid, ignored_deep_name, ignored_deep_type.
    + destruct cs as [|c cs]; [done|]. constructor; [apply ignored_items_marker|].
      apply ignored_flat_map. eapply Forall_impl; [exact IH|].
      intros x Hx. apply Hx. lia.
Qed.

(** ** Writing and reading back: items and namespaces *)

Lemma alter_snoc {A} (f : A → A) (l : list A) x :
  alter f (length l) (l ++ [x]) = l ++ [f x].
Proof. induction l as [|y l IH]; [done|]. simpl. by rewrite <-IH. Qed.

Lemma uid_value v :
  plain "- uid:" v = true →
  strip (remove "- uid:" ("- uid:" +:+ field_tail (rstrip v))) = v.
Proof. by apply value_of_line. Qed.

Lemma name_value v :
  plain "name:" v = true →
  strip (remove "name:" ("name:" +:+ field_tail (rstrip v))) = v.
Proof. by apply value_of_line. Qed.

Lemma type_value v :
  plain "type:" v = true →
  strip (remove "type:" ("type:" +:+ field_tail (rstrip v))) = v.
Proof. by apply value_of_line. Qed.

(** The entry of a top-level item, read back: the item without its children,
    appended to the items of the current namespace. *)
Lemma parse_written_item st ns it :
  current_namespace st = Some ns → plain_item it = true →
  parse_lines st (write_item it 1)
  = OK (PState (p_result st)
               (Some (set_ns_items (ns_items ns ++ [without_children it]) ns))
               (Some (length (ns_items ns)))).
Proof.
  intros Hns Hplain. destruct it as [u n t cs]. unfold plain_item in Hplain.
  simpl in Hplain.
  apply andb_prop in Hplain as [[[Hu Hn]%andb_prop Ht]%andb_prop _].
  apply plain_field_inv in Hn as (n' & -> & Hn), Ht as (t' & -> & Ht).
  rewrite write_item_unfold. simpl i_uid; simpl i_name; simpl i_type; simpl fmt.
  rewrite parse_lines_app, !parse_lines_cons.
  rewrite (parse_line_item_uid st _ (field_tail (rstrip u)) ns);
    [|by rewrite strip_indent, strip_uid_line
     |by rewrite indent_of_indent, indent_of_uid_line
     |done].
  rewrite (uid_value _ Hu). cbn [mbind result_bind]. rewrite ?parse_lines_cons.
  rewrite (parse_line_item_name _ _ (field_tail (rstrip n')));
    [|by rewrite strip_indent, strip_name_line
     |by rewrite indent_of_indent, indent_of_name_line
     |by eexists].
  rewrite (name_value _ Hn). cbn [mbind result_bind]. rewrite ?parse_lines_cons.
  rewrite (parse_line_item_type _ _ (field_tail (rstrip t')));
    [|by rewrite strip_indent, strip_type_line
     |by rewrite indent_of_indent, indent_of_type_line
     |by eexists].
  rewrite (type_value _ Ht). cbn [mbind result_bind]. rewrite ?parse_lines_cons.
  unfold update_current_item. simpl. rewrite !alter_snoc.
  rewrite parse_lines_ignored; [done|].
  destruct cs as [[|c cs]|]; try done.
  constructor; [apply (ignored_items_marker 1)|].
  apply ignored_flat_map, Forall_forall. intros x _. by apply write_item_ignored.
Qed.

Lemma parse_written_items items : ∀ st ns,
  current_namespace st = Some ns → forallb plain_item items = true →
  ∃ ci, parse_lines st (List.flat_map (λ it, write_item it 1) items)
        = OK (PState (p_result st)
                     (Some (set_ns_items (ns_items ns ++ (without_children <$> items)) ns))
                     ci).
Proof.
  induction items as [|it items IH]; intros st ns Hns Hall.
  - exists (current_item st). destruct st as [res cur ci], ns as [u n t l].
    simpl in *. subst. unfold set_ns_items. simpl. by rewrite app_nil_r.
  - simpl in Hall. apply andb_prop in Hall as [Hit Hall].
    simpl List.flat_map. rewrite parse_lines_app.
    rewrite (parse_written_item _ _ _ Hns Hit). cbn [mbind result_bind].
    edestruct (IH (PState (p_result st)
                          (Some (set_ns_items (ns_items ns ++ [without_children it]) ns))
                          (Some (length (ns_items ns))))) as [ci ->]; [done|done|].
    exists ci. simpl. unfold set_ns_items. simpl. by rewrite <-(assoc_L (++)).
Qed.

(** The entry of a namespace, read back: the namespace in progress is
    appended to the result, and the new one has its items without children. *)
Lemma parse_written_namespace st ns :
  plain_namespace ns = true →
  ∃ ci, parse_lines st (write_namespace ns)
        = OK (PState (p_result st ++ option_list (current_namespace st))
                     (Some (flattened ns)) ci).
Proof.
  intros Hplain. destruct ns as [u n t items]. unfold plain_namespace in Hplain.
  simpl in Hplain.
  apply andb_prop in Hplain as [[[Hu Hn]%andb_prop Ht]%andb_prop Hitems].
  apply plain_field_inv in Hn as (n' & -> & Hn), Ht as (t' & -> & Ht).
  unfold write_namespace.
  simpl ns_uid; simpl ns_name; simpl ns_type; simpl ns_items; simpl fmt.
  rewrite parse_lines_app, !parse_lines_cons.
  rewrite (parse_line_ns_uid st _ (field_tail (rstrip u)));
    [|by rewrite strip_uid_line|by rewrite indent_of_uid_line].
  rewrite (uid_value _ Hu). cbn [mbind result_bind]. rewrite ?parse_lines_cons.
  erewrite (parse_line_ns_name _ _ (field_tail (rstrip n')));
    [|by rewrite strip_name_line|by rewrite indent_of_name_line|done|done].
  rewrite (name_value _ Hn). cbn [mbind result_bind]. rewrite ?parse_lines_cons.
  erewrite (parse_line_ns_type _ _ (field_tail (rstrip t')));
    [|by rewrite strip_type_line|by rewrite indent_of_type_line|done|done].
  rewrite (type_value _ Ht). cbn [mbind result_bind]. rewrite ?parse_lines_cons. simpl.
  destruct items as [|it items]; [by exists None|].
  rewrite parse_lines_cons, (parse_line_items_marker _ "  items:") by done.
  cbn [mbind result_bind].
  edestruct (parse_written_items (it :: items)) as [ci ->]; [done|done|].
  by exists ci.
Qed.

Arguments write_namespace : simpl never.

Lemma parse_written_namespaces namespaces : ∀ st,
  forallb plain_namespace namespaces = true →
  ∃ st', parse_lines st (List.flat_map write_namespace namespaces) = OK st'
         ∧ parse_finish st' = parse_finish st ++ (flattened <$> namespaces).
Proof.
  induction namespaces as [|ns l IH]; intros st Hall.
  - exists st. split; [done|]. simpl. by rewrite app_nil_r.
  - simpl in Hall. apply andb_prop in Hall as [Hns Hall].
    change (List.flat_map write_namespace (ns :: l))
      with (write_namespace ns ++ List.flat_map write_namespace l).
    rewrite parse_lines_app.
    destruct (parse_written_namespace st ns Hns) as [ci ->]. cbn [mbind result_bind].
    edestruct IH as (st' & -> & Hfinish); [done|].
    exists st'. split; [done|]. rewrite Hfinish. unfold parse_finish. simpl.
    by rewrite <-!(assoc_L (++)).
Qed.

Lemma flattened_childless namespaces :
  forallb (λ ns, forallb childless (ns_items ns)) namespaces = true →
  flattened <$> namespaces = namespaces.
Proof.
  intros H. rewrite <-(list_fmap_id namespaces) at 2.
  apply list_fmap_ext. intros i ns Hi.
  rewrite forallb_forall in H.
  specialize (H ns (proj1 (list_elem_of_In _ _) (list_elem_of_lookup_2 _ _ _ Hi))).
  destruct ns as [u n t items]. unfold flattened, set_ns_items. simpl in *. f_equal.
  rewrite <-(list_fmap_id items) at 2. apply list_fmap_ext. intros j it Hj.
  rewrite forallb_forall in H.
  specialize (H it (proj1 (list_elem_of_In _ _) (list_elem_of_lookup_2 _ _ _ Hj))).
  destruct it as [? ? ? [?|]]; done.
Qed.

(** C2 (as the code has it). For a forest of plain records (fields set, each
    value one line without white space at its ends and without the text of
    its own key inside; the texts of children one line each), parsing what
    the writer makes returns the same namespaces and the same top-level
    items, identifier, name and kind, in the same order, but with no child
    lists: the parser steps over every entry written below an item.  So the
    round trip gives back the forest itself when no item has children. *)
Theorem parse_written_toc namespaces :
  forallb plain_namespace namespaces = true →
  parse_toc (write_toc namespaces) = OK (flattened <$> namespaces)
  ∧ (forallb (λ ns, forallb childless (ns_items ns)) namespaces = true →
     parse_toc (write_toc namespaces) = OK namespaces).
Proof.
  intros Hplain.
  assert (parse_toc (write_toc namespaces) = OK (flattened <$> namespaces)) as Hparse.
  { unfold parse_toc, write_toc. fold (text (toc_lines namespaces)).
    unfold toc_lines at 1. simpl app.
    rewrite split_lines_text by (apply (toc_lines_one_line _ Hplain)).
    fold (parse_lines parse_init).
    change (("### YamlMime:TableOfContent" :: "items:"
             :: List.flat_map write_namespace namespaces) ++ [""])
      with ("### YamlMime:TableOfContent" :: "items:"
            :: (List.flat_map write_namespace namespaces ++ [""])).
    rewrite !parse_lines_cons.
    rewrite (parse_line_header _ "### YamlMime:TableOfContent") by done.
    cbn [mbind result_bind]. rewrite parse_lines_cons.
    rewrite (parse_line_items_marker _ "items:") by done.
    cbn [mbind result_bind]. rewrite parse_lines_app.
    destruct (parse_written_namespaces namespaces parse_init Hplain)
      as (st' & -> & Hfinish).
    cbn [mbind result_bind]. rewrite parse_lines_cons.
    rewrite (parse_line_blank _ "") by done. cbn [mbind result_bind].
    unfold parse_lines. simpl. by rewrite Hfinish. }
  split; [done|]. intros Hflat. by rewrite Hparse, flattened_childless.
Qed.

Lemma parse_written_toc_witness :
  parse_toc (write_toc widget_forest) = OK widget_forest.
Proof.
  apply (proj2 (parse_written_toc widget_forest eq_refl)). reflexivity.
Defined.

(** Child lists do not survive: the written form of a nested forest parses
    to the forest without the children, and a second run of the three stages
    on the output of the first run drops the nested entries. *)
Lemma reparse_loses_children :
  parse_toc (write_toc nested_widget_forest)
  = OK [Namespace "N1" (Some "N1") (Some "Namespace")
          [Item "a" (Some "Widget") (Some "Class") None]]
  ∧ parse_toc (write_toc nested_widget_forest) ≠ OK nested_widget_forest
  ∧ (out ← pipeline widget_toc; pipeline out)
    = OK (text ["### YamlMime:TableOfContent"; "items:";
                "- uid: N1"; "  name: N1"; "  type: Namespace"; "  items:";
                "  - uid: a"; "    name: Widget"; "    type: Class"])
  ∧ (out ← pipeline widget_toc; pipeline out) ≠ pipeline widget_toc.
Proof. split_and!; [reflexivity|discriminate|reflexivity|discriminate]. Qed.

(** An unset field does not survive either: it is written as [None] and read
    back as the text ["None"]. *)
Example reparse_unset_name :
  parse_toc (write_toc [Namespace "N1" None (Some "Namespace") []])
  = OK [Namespace "N1" (Some "None") (Some "Namespace") []].
Proof. reflexivity. Qed.

(** * Further properties *)

(** ** The nester returns exactly on named items *)

(** X1. [nest_items] returns, with as many namespaces as it was given, when
    every item of every namespace has its name set; otherwise it raises
    [TypeError], and it raises nothing else. *)
Theorem nest_items_returns_iff_named namespaces :
  (all_named namespaces = true →
   ∃ namespaces', nest_items namespaces = OK namespaces'
                  ∧ length namespaces' = length namespaces)
  ∧ (all_named namespaces = false → nest_items namespaces = Raise TypeError).
Proof.
  split; intros H.
  - exists (nested_namespace <$> namespaces). split; [by apply nest_items_named|].
    by rewrite length_fmap.
  - apply forallb_false in H as (ns & Hns & Hitems).
    apply forallb_false in Hitems as (it & Hit & Hname).
    apply (nest_items_unnamed namespaces ns it); [done..|].
    unfold is_named in Hname. by destruct (i_name it).
Qed.

Lemma nest_items_returns_iff_named_witness :
  (∃ namespaces', nest_items widget_forest = OK namespaces'
                  ∧ length namespaces' = length widget_forest)
  ∧ nest_items unnamed_forest = Raise TypeError.
Proof.
  split.
  - apply (proj1 (nest_items_returns_iff_named widget_forest)). reflexivity.
  - apply (proj2 (nest_items_returns_iff_named unnamed_forest)). reflexivity.
Defined.

(** ** Exactly the re-parented items leave the top level *)

Lemma fmap_filter_related {A B C} (g : A → C) (h : B → C)
    (P : A → Prop) `{!∀ x, Decision (P x)} (Q : B → bool) l l' :
  Forall2 (λ x y, g x = h y ∧ (P x ↔ Q y = true)) l l' →
  g <$> filter P l = h <$> List.filter Q l'.
Proof.
  induction 1 as [|x y l l' [Hg HP] _ IH]; [done|].
  rewrite filter_cons. simpl. destruct (Q y) eqn:E.
  - rewrite decide_True by (by apply HP). simpl. f_equal; [done|exact IH].
  - rewrite decide_False; [exact IH|]. rewrite HP. congruence.
Qed.

Lemma moved_marked items it :
  it ∈ items →
  is_nested (list_to_set (marked items (length items))) it ↔ moved items it = true.
Proof.
  intros Hin. unfold is_nested, moved. destruct (i_name it) as [n|] eqn:Hn; [|done].
  rewrite elem_of_list_to_set, elem_of_marked. split; [by intros [_ ?]|].
  intros H. split; [by exists it|done].
Qed.

(** X2. In a forest whose items all have names, the top-level items that
    the nester leaves in a namespace are exactly the original items that the
    scan does not re-parent, in their original order, each with its
    identifier, name and kind. *)
Theorem nest_items_keeps_exactly_unmoved namespaces k ns :
  all_named namespaces = true →
  namespaces !! k = Some ns →
  ∃ namespaces' ns',
    nest_items namespaces = OK namespaces'
    ∧ namespaces' !! k = Some ns'
    ∧ triple <$> ns_items ns'
      = triple <$> List.filter (λ it, negb (moved (ns_items ns) it)) (ns_items ns).
Proof.
  intros Hnamed Hns. exists (nested_namespace <$> namespaces), (nested_namespace ns).
  split_and!; [by apply nest_items_named|by rewrite list_lookup_fmap, Hns|].
  unfold nested_namespace. simpl. apply fmap_filter_related.
  apply Forall2_same_length_lookup. split.
  - unfold scanned. by rewrite length_imap.
  - intros j x y Hx Hy. unfold scanned in Hx. rewrite list_lookup_imap, Hy in Hx.
    simplify_eq/=. split; [apply triple_with_children|].
    rewrite negb_true_iff, <-not_true_iff_false.
    assert (is_nested (list_to_set (marked (ns_items ns) (length (ns_items ns))))
              (with_children (kids (ns_items ns) (length (ns_items ns)) j) y)
            ↔ moved (ns_items ns) y = true) as ->; [|done].
    rewrite <-(moved_marked _ y) by (by eapply list_elem_of_lookup_2).
    unfold is_nested. by rewrite name_with_children.
Qed.

Lemma nest_items_keeps_exactly_unmoved_witness :
  ∃ namespaces' ns',
    nest_items abc_forest = OK namespaces'
    ∧ namespaces' !! 0 = Some ns'
    ∧ triple <$> ns_items ns' = [("a", Some "A", Some "Class")].
Proof.
  apply (nest_items_keeps_exactly_unmoved abc_forest 0
           (Namespace "N" (Some "N") (Some "Namespace") abc_items));
    reflexivity.
Defined.

(** ** Namespaces in which nothing is re-parented *)

Lemma omap_nil {A B} (f : A → option B) l :
  Forall (λ x, f x = None) l → omap f l = [].
Proof. induction 1 as [|x l Hx _ IH]; [done|]. simpl. by rewrite Hx. Qed.

Lemma filter_all {A} (P : A → Prop) `{!∀ x, Decision (P x)} l :
  Forall P l → filter P l = l.
Proof.
  induction 1 as [|x l Hx _ IH]; [done|].
  rewrite filter_cons, decide_True by done. by rewrite IH.
Qed.

Lemma unmoved_nesting items it : moved items it = false → nesting items it = None.
Proof.
  unfold moved. destruct (i_name it) as [n|] eqn:Hn; intros H.
  - destruct (nesting items it) eqn:E; [|done].
    assert (reparented items n = true); [|congruence].
    apply (reparented_nesting items it n Hn). by rewrite E.
  - unfold nesting. by rewrite Hn.
Qed.

Lemma settled_unmoved ns :
  settled ns = true → Forall (λ it, nesting (ns_items ns) it = None) (ns_items ns).
Proof.
  unfold settled. rewrite forallb_forall. intros H. apply Forall_forall.
  intros it Hit%list_elem_of_In. apply unmoved_nesting, negb_true_iff. by apply H.
Qed.

Lemma nested_namespace_settled ns : settled ns = true → nested_namespace ns = ns.
Proof.
  intros H%settled_unmoved. destruct ns as [u n t items]. simpl in *.
  unfold nested_namespace, set_ns_items. simpl. f_equal.
  assert (∀ j, kids items (length items) j = []) as Hkids.
  { intros j. unfold kids. rewrite take_ge by done. apply omap_nil.
    eapply Forall_impl; [exact H|]. intros it Hit. simpl. by rewrite Hit. }
  assert (marked items (length items) = []) as ->.
  { unfold marked. rewrite take_ge by done. apply omap_nil.
    eapply Forall_impl; [exact H|]. intros it Hit. simpl. by rewrite Hit. }
  assert (scanned items (length items) = items) as ->.
  { unfold scanned. transitivity (id <$> items); [|apply list_fmap_id].
    rewrite <-imap_const. apply imap_ext. intros j x _. simpl. by rewrite Hkids. }
  apply filter_all, Forall_forall. intros it _. unfold is_nested.
  destruct (i_name it); [|tauto]. simpl. apply not_elem_of_empty.
Qed.

Lemma nest_settled_unchanged namespaces :
  all_named namespaces = true →
  forallb settled namespaces = true →
  nest_items namespaces = OK namespaces.
Proof.
  intros Hnamed Hsettled. rewrite (nest_items_named _ Hnamed). f_equal.
  rewrite <-(list_fmap_id namespaces) at 2. apply list_fmap_ext.
  intros i ns Hi. apply nested_namespace_settled.
  rewrite forallb_forall in Hsettled.
  by apply Hsettled, list_elem_of_In, (list_elem_of_lookup_2 _ i).
Qed.

(** X3. A forest whose items all have names and in which no name is
    re-parented (no dotted name has the text before its last dot as the name
    of an item of its namespace) comes back from the nester as it is. *)
Theorem nest_items_settled namespaces :
  all_named namespaces = true →
  forallb settled namespaces = true →
  nest_items namespaces = OK namespaces.
Proof.
  intros Hnamed Hsettled. rewrite (nest_items_named _ Hnamed). f_equal.
  transitivity (id <$> namespaces); [|apply list_fmap_id].
  apply list_fmap_ext. intros i ns Hi. simpl.
  rewrite forallb_forall in Hsettled.
  apply nested_namespace_settled, Hsettled, list_elem_of_In.
  by eapply list_elem_of_lookup_2.
Qed.

Lemma nest_items_settled_witness : nest_items orphan_forest = OK orphan_forest.
Proof. apply (nest_items_settled orphan_forest); reflexivity. Defined.

Lemma not_reparented_fewer items items' n :
  (∀ y, y ∈ items' → ∃ p, p ∈ items ∧ i_name y = i_name p) →
  reparented items n = false → reparented items' n = false.
Proof.
  intros Hsub. unfold reparented.
  destruct (rsplit_dot n) as [[pn cn]|]; [|done].
  rewrite !bool_decide_eq_false. intros Hnone [j Hj].
  apply find_parent_Some in Hj as (y & Hy & Hname).
  destruct (Hsub y) as (p & Hp & Hyp); [by eapply list_elem_of_lookup_2|].
  apply Hnone. rewrite Hyp in Hname.
  destruct (find_parent_elem_of pn items p Hp Hname) as [j' ->]. by eexists.
Qed.

Lemma nested_namespace_named_settled ns :
  forallb is_named (ns_items ns) = true →
  forallb is_named (ns_items (nested_namespace ns)) = true
  ∧ settled (nested_namespace ns) = true.
Proof.
  intros Hnamed. rewrite forallb_forall in Hnamed. unfold settled.
  rewrite !forallb_forall.
  assert (∀ x, x ∈ ns_items (nested_namespace ns) →
               ∃ p, p ∈ ns_items ns ∧ i_name x = i_name p
                    ∧ ∀ n, i_name p = Some n → reparented (ns_items ns) n = false) as Hin.
  { intros x (j & p & Hp & -> & Hstay)%elem_of_nested_items.
    exists p. split_and!; [by eapply list_elem_of_lookup_2| |done].
    by rewrite name_with_children. }
  split; intros x Hx%list_elem_of_In; destruct (Hin x Hx) as (p & Hp & Hname & Hstay).
  - unfold is_named. rewrite Hname. by apply Hnamed, list_elem_of_In.
  - apply negb_true_iff. unfold moved. rewrite Hname.
    destruct (i_name p) as [n|] eqn:Hn; [|done].
    apply (not_reparented_fewer (ns_items ns)); [|by apply Hstay].
    intros y Hy. destruct (Hin y Hy) as (q & ? & ? & _). eauto.
Qed.

(** X4. Nesting is idempotent on the records: what [nest_items] returns is
    returned unchanged by a second call. *)
Theorem nest_items_idempotent namespaces namespaces' :
  nest_items namespaces = OK namespaces' →
  nest_items namespaces' = OK namespaces'.
Proof.
  intros H.
  destruct (all_named namespaces) eqn:Hnamed.
  - rewrite (nest_items_named _ Hnamed) in H. simplify_eq.
    unfold all_named in Hnamed. rewrite forallb_forall in Hnamed.
    apply nest_settled_unchanged.
    + unfold all_named. apply forallb_forall.
      intros x (ns & -> & Hns)%list_elem_of_In%list_elem_of_fmap.
      by apply nested_namespace_named_settled, Hnamed, list_elem_of_In.
    + apply forallb_forall.
      intros x (ns & -> & Hns)%list_elem_of_In%list_elem_of_fmap.
      by apply nested_namespace_named_settled, Hnamed, list_elem_of_In.
  - apply forallb_false in Hnamed as (ns & Hns & Hitems).
    apply forallb_false in Hitems as (it & Hit & Hname).
    rewrite (nest_items_unnamed namespaces ns it) in H; [done..|].
    unfold is_named in Hname. by destruct (i_name it).
Qed.

Lemma nest_items_idempotent_witness :
  nest_items nested_widget_forest = OK nested_widget_forest.
Proof.
  apply (nest_items_idempotent widget_forest nested_widget_forest). reflexivity.
Defined.

(** ** The children that the nester appends *)

Lemma rsplit_dot_child s p c : rsplit_dot s = Some (p, c) → has_dot c = false.
Proof.
  revert p c. induction s as [|x s IH]; intros p c; simpl; [done|].
  destruct (rsplit_dot s) as [[p' c']|] eqn:E.
  - intros. simplify_eq. by eapply IH.
  - destruct (Ascii.eqb x "."); intros; simplify_eq. by apply rsplit_dot_None.
Qed.

Lemma omap_sublist {A B C} (f : A → option B) (g : B → C) (h : A → C) l :
  (∀ x y, f x = Some y → g y = h x) →
  g <$> omap f l `sublist_of` h <$> l.
Proof.
  intros Hf. induction l as [|x l IH]; [done|]. simpl.
  destruct (f x) as [y|] eqn:E; simpl.
  - rewrite (Hf _ _ E). by constructor.
  - by constructor.
Qed.

Lemma nesting_child items it j c :
  nesting items it = Some (j, c) → uid_type c = uid_type it ∧ fresh_child c.
Proof.
  unfold nesting. destruct (i_name it) as [n|]; [simpl|done].
  destruct (rsplit_dot n) as [[pn cn]|] eqn:E; [simpl|done].
  destruct (find_parent pn items); [simpl|done].
  intros. simplify_eq. split; [done|]. split; [done|].
  exists cn. split; [done|]. by eapply rsplit_dot_child.
Qed.

(** X5. In a forest whose items all have names, each top-level item left by
    the nester is an original item with its identifier, name and kind, and
    its child list is the original one followed by the records appended by
    the scan (the list is left as it was when none is appended).  The
    appended records come in the order of the items they were made from,
    with their identifier and kind, and each has a name without dot and no
    children of its own. *)
Theorem nested_children_in_order namespaces k ns :
  all_named namespaces = true →
  namespaces !! k = Some ns →
  ∃ namespaces' ns',
    nest_items namespaces = OK namespaces'
    ∧ namespaces' !! k = Some ns'
    ∧ ∀ p', p' ∈ ns_items ns' →
        ∃ p new,
          p ∈ ns_items ns
          ∧ triple p' = triple p
          ∧ i_children p'
            = match new with
              | [] => i_children p
              | _ => Some (default [] (i_children p) ++ new)
              end
          ∧ uid_type <$> new `sublist_of` uid_type <$> ns_items ns
          ∧ Forall fresh_child new.
Proof.
  intros Hnamed Hns. exists (nested_namespace <$> namespaces), (nested_namespace ns).
  split_and!; [by apply nest_items_named|by rewrite list_lookup_fmap, Hns|].
  intros p' (j & p & Hp & -> & _)%elem_of_nested_items.
  exists p, (kids (ns_items ns) (length (ns_items ns)) j).
  split_and!.
  - by eapply list_elem_of_lookup_2.
  - apply triple_with_children.
  - by destruct (kids (ns_items ns) (length (ns_items ns)) j).
  - unfold kids. rewrite take_ge by done. apply omap_sublist.
    intros it c Hc. destruct (nesting (ns_items ns) it) as [[j' c']|] eqn:E;
      simpl in Hc; [|done].
    case_decide; simplify_eq. by apply nesting_child in E as [? _].
  - apply Forall_forall. intros c Hc. unfold kids in Hc.
    apply list_elem_of_omap in Hc as (it & _ & Hc).
    destruct (nesting (ns_items ns) it) as [[j' c']|] eqn:E; simpl in Hc; [|done].
    case_decide; simplify_eq. by apply nesting_child in E as [_ ?].
Qed.

Lemma nested_children_in_order_witness :
  ∃ namespaces' ns',
    nest_items widget_forest = OK namespaces'
    ∧ namespaces' !! 0 = Some ns'
    ∧ ∀ p', p' ∈ ns_items ns' →
        ∃ p new,
          p ∈ [Item "a" (Some "Widget") (Some "Class") None;
               Item "b" (Some "Widget.Inner") (Some "Class") None]
          ∧ triple p' = triple p
          ∧ i_children p'
            = match new with
              | [] => i_children p
              | _ => Some (default [] (i_children p) ++ new)
              end
          ∧ uid_type <$> new `sublist_of` [("a", Some "Class"); ("b", Some "Class")]
          ∧ Forall fresh_child new.
Proof.
  apply (nested_children_in_order widget_forest 0
           (Namespace "N1" (Some "N1") (Some "Namespace")
              [Item "a" (Some "Widget") (Some "Class") None;
               Item "b" (Some "Widget.Inner") (Some "Class") None]));
    reflexivity.
Defined.

(** ** Several items with the name of the parent *)

Lemma find_parent_is_first parent_name items j p :
  items !! j = Some p → i_name p = Some parent_name →
  (∀ j' q, j' < j → items !! j' = Some q → i_name q ≠ Some parent_name) →
  find_parent parent_name items = Some j.
Proof.
  intros Hp Hname Hfirst. unfold find_parent.
  assert (list_find (λ p, i_name p = Some parent_name) items = Some (j, p)) as ->;
    [|done].
  apply list_find_Some. split_and!; [done..|].
  intros j' q Hq Hlt. by apply (Hfirst j' q).
Qed.

(** X6. In a forest whose items all have names, take a namespace with an
    item named [name.bar], [bar] free of dots, where [name] is not itself
    re-parented, and the first item of the namespace that is named [name].
    After nesting, that first item is at the top level with its identifier,
    name and kind, and it has, after the children it had, a child named
    [bar] with the identifier and the kind of the [name.bar] item; its
    written block shows the child below its items marker.  Every other item
    named [name] stays at the top level exactly as it was, and no top-level
    item is named [name.bar]. *)
Theorem children_go_to_first_namesake namespaces k ns j1 p1 ic fb name bar :
  all_named namespaces = true →
  namespaces !! k = Some ns →
  ns_items ns !! j1 = Some p1 → i_name p1 = Some name →
  (∀ j q, j < j1 → ns_items ns !! j = Some q → i_name q ≠ Some name) →
  ns_items ns !! ic = Some fb → i_name fb = Some (name +:+ "." +:+ bar) →
  has_dot bar = false →
  reparented (ns_items ns) name = false →
  ∃ namespaces' ns' p1' before after,
    nest_items namespaces = OK namespaces'
    ∧ namespaces' !! k = Some ns'
    ∧ p1' ∈ ns_items ns' ∧ triple p1' = triple p1
    ∧ i_children p1'
      = Some ((default [] (i_children p1) ++ before)
              ++ Item (i_uid fb) (Some bar) (i_type fb) None :: after)
    ∧ write_item p1' 1
      = ["  - uid: " +:+ i_uid p1; "    name: " +:+ name;
         "    type: " +:+ fmt (i_type p1); "    items:"]
        ++ List.flat_map (λ c, write_item c 2) (default [] (i_children p1) ++ before)
        ++ ["    - uid: " +:+ i_uid fb; "      name: " +:+ bar;
            "      type: " +:+ fmt (i_type fb)]
        ++ List.flat_map (λ c, write_item c 2) after
    ∧ (∀ j2 p2, j2 ≠ j1 → ns_items ns !! j2 = Some p2 → i_name p2 = Some name →
                p2 ∈ ns_items ns')
    ∧ (∀ it, it ∈ ns_items ns' → i_name it ≠ Some (name +:+ "." +:+ bar)).
Proof.
  intros Hnamed Hns Hp1 Hn1 Hfirst Hfb Hfbname Hbar Hstay.
  set (items := ns_items ns) in *.
  set (child := Item (i_uid fb) (Some bar) (i_type fb) None).
  pose proof (find_parent_is_first name items j1 p1 Hp1 Hn1 Hfirst) as Hj.
  assert (nesting items fb = Some (j1, child)) as Hnest.
  { unfold nesting. rewrite Hfbname. simpl. rewrite (rsplit_dot_app _ _ Hbar). simpl.
    by rewrite Hj. }
  assert (child ∈ kids items (length items) j1) as Hkid.
  { unfold kids. rewrite take_ge by done. apply list_elem_of_omap.
    exists fb. split; [by eapply list_elem_of_lookup_2|].
    rewrite Hnest. simpl. by rewrite decide_True. }
  apply list_elem_of_split in Hkid as (l1 & l2 & Hkids).
  set (p := with_children (kids items (length items) j1) p1).
  assert (i_children p = Some ((default [] (i_children p1) ++ l1) ++ child :: l2)) as Hch.
  { unfold p. rewrite children_with_children by (rewrite Hkids; by destruct l1).
    by rewrite Hkids, (assoc_L (++)). }
  assert (triple p = triple p1) as Htriple by apply triple_with_children.
  exists (nested_namespace <$> namespaces), (nested_namespace ns), p, l1, l2.
  split_and!.
  - by apply nest_items_named.
  - by rewrite list_lookup_fmap, Hns.
  - apply elem_of_nested_items. exists j1, p1. split_and!; [done..|].
    intros n Hn. by simplify_eq.
  - done.
  - done.
  - rewrite (write_item_child_block _ _ _ _ _ Hch).
    rewrite (write_item_unfold child). simpl.
    injection Htriple as -> Hpn ->. rewrite Hpn, Hn1. simpl.
    reflexivity.
  - intros j2 p2 Hne Hp2 Hn2.
    apply elem_of_nested_items. exists j2, p2. fold items. split_and!; [done| |].
    + assert (kids items (length items) j2 = []) as ->; [|done].
      unfold kids. rewrite take_ge by done. apply omap_nil, Forall_forall.
      intros it _. destruct (nesting items it) as [[j' c]|] eqn:E; [simpl|done].
      case_decide; [|done]. subst j'. exfalso.
      unfold nesting in E. destruct (i_name it) as [n|]; [simpl in E|done].
      destruct (rsplit_dot n) as [[pn cn]|]; [simpl in E|done].
      destruct (find_parent pn items) as [j|] eqn:Hfind; [simpl in E|done].
      simplify_eq.
      destruct (find_parent_Some _ _ _ Hfind) as (q & Hq & Hqname). simplify_eq.
    + intros n Hn. by simplify_eq.
  - intros x (j' & p' & Hp' & -> & Hkeep)%elem_of_nested_items Hx.
    rewrite name_with_children in Hx. specialize (Hkeep _ Hx).
    unfold reparented in Hkeep. rewrite (rsplit_dot_app _ _ Hbar) in Hkeep.
    fold items in Hkeep. rewrite Hj in Hkeep. done.
Qed.

Lemma children_go_to_first_namesake_witness :
  ∃ namespaces' ns' p1' before after,
    nest_items namesakes_forest = OK namespaces'
    ∧ namespaces' !! 0 = Some ns'
    ∧ p1' ∈ ns_items ns' ∧ triple p1' = ("a", Some "Util", Some "Class")
    ∧ i_children p1'
      = Some (([] ++ before) ++ Item "d" (Some "Net") (Some "Enum") None :: after)
    ∧ write_item p1' 1
      = ["  - uid: a"; "    name: Util"; "    type: Class"; "    items:"]
        ++ List.flat_map (λ c, write_item c 2) ([] ++ before)
        ++ ["    - uid: d"; "      name: Net"; "      type: Enum"]
        ++ List.flat_map (λ c, write_item c 2) after
    ∧ (∀ j2 p2, j2 ≠ 1 → namesakes_items !! j2 = Some p2 → i_name p2 = Some "Util" →
                p2 ∈ ns_items ns')
    ∧ (∀ it, it ∈ ns_items ns' → i_name it ≠ Some "Util.Net").
Proof.
  apply (children_go_to_first_namesake namesakes_forest 0
           (Namespace "N1" (Some "N1") (Some "Namespace") namesakes_items)
           1 (Item "a" (Some "Util") (Some "Class") None)
           4 (Item "d" (Some "Util.Net") (Some "Enum") None)
           "Util" "Net"); try reflexivity.
  intros [|j] q Hlt Hq; [|lia]. by injection Hq as <-.
Defined.

(** The children [Log] and [Net] under the first [Util]; the second [Util]
    as it was. *)
Example nest_namesakes :
  nest_items namesakes_forest
  = OK [Namespace "N1" (Some "N1") (Some "Namespace")
          [Item "o" (Some "Other") (Some "Class") None;
           Item "a" (Some "Util") (Some "Class")
             (Some [Item "c" (Some "Log") (Some "Class") None;
                    Item "d" (Some "Net") (Some "Enum") None]);
           Item "b" (Some "Util") (Some "Struct") None]].
Proof. reflexivity. Qed.

Example nest_twins :
  nest_items twins_forest
  = OK [Namespace "N1" (Some "N1") (Some "Namespace")
          [Item "a" (Some "Util") (Some "Class")
             (Some [Item "c" (Some "Log") (Some "Class") None]);
           Item "b" (Some "Util") (Some "Struct") None]].
Proof. reflexivity. Qed.

(** ** When no entry is lost *)

(** X16. In a forest whose items all have names, take a namespace in which
    the parent found for an item is never itself re-parented (so it is
    when no name has more than one dot).  Then no item is lost: each one is
    still a top-level item with its identifier, name and kind, or is the
    source of a child record, with its identifier and kind, of a top-level
    item. *)
Theorem no_entry_lost namespaces k ns i it :
  all_named namespaces = true →
  namespaces !! k = Some ns →
  forallb (parent_stays (ns_items ns)) (ns_items ns) = true →
  ns_items ns !! i = Some it →
  ∃ namespaces' ns',
    nest_items namespaces = OK namespaces'
    ∧ namespaces' !! k = Some ns'
    ∧ ((∃ it', it' ∈ ns_items ns' ∧ triple it' = triple it)
       ∨ (∃ p' cs c, p' ∈ ns_items ns' ∧ i_children p' = Some cs
                     ∧ c ∈ cs ∧ uid_type c = uid_type it)).
Proof.
  intros Hnamed Hns Hparents Hit.
  exists (nested_namespace <$> namespaces), (nested_namespace ns).
  split_and!; [by apply nest_items_named|by rewrite list_lookup_fmap, Hns|].
  set (items := ns_items ns) in *.
  assert (it ∈ items) as Hin by (by eapply list_elem_of_lookup_2).
  destruct (moved items it) eqn:Hmoved.
  - right. unfold moved in Hmoved. destruct (i_name it) as [n|] eqn:Hn; [|done].
    rewrite forallb_forall in Hparents.
    specialize (Hparents it (proj1 (list_elem_of_In _ _) Hin)).
    unfold parent_stays in Hparents. rewrite Hn in Hparents.
    unfold reparented in Hmoved.
    destruct (rsplit_dot n) as [[pn cn]|] eqn:Hsplit; [|done].
    apply bool_decide_eq_true in Hmoved as [j Hj].
    rewrite Hj in Hparents. apply negb_true_iff in Hparents.
    destruct (find_parent_Some _ _ _ Hj) as (pj & Hpj & Hpjname).
    set (child := Item (i_uid it) (Some cn) (i_type it) None).
    assert (nesting items it = Some (j, child)) as Hnest.
    { unfold nesting. rewrite Hn. simpl. rewrite Hsplit. simpl. by rewrite Hj. }
    assert (child ∈ kids items (length items) j) as Hkid.
    { unfold kids. rewrite take_ge by done. apply list_elem_of_omap.
      exists it. split; [done|]. rewrite Hnest. simpl. by rewrite decide_True. }
    exists (with_children (kids items (length items) j) pj),
           (default [] (i_children pj) ++ kids items (length items) j), child.
    split_and!.
    + apply elem_of_nested_items. exists j, pj. split_and!; [done..|].
      intros n' Hn'. by simplify_eq.
    + apply children_with_children. intros Hnil. rewrite Hnil in Hkid.
      by apply not_elem_of_nil in Hkid.
    + apply elem_of_app. by right.
    + done.
  - left. exists (with_children (kids items (length items) i) it). split.
    + apply elem_of_nested_items. exists i, it. split_and!; [done..|].
      intros n Hn. unfold moved in Hmoved. by rewrite Hn in Hmoved.
    + apply triple_with_children.
Qed.

Lemma no_entry_lost_witness :
  (∃ namespaces' ns',
     nest_items widget_forest = OK namespaces'
     ∧ namespaces' !! 0 = Some ns'
     ∧ ((∃ it', it' ∈ ns_items ns'
                ∧ triple it' = ("b", Some "Widget.Inner", Some "Class"))
        ∨ (∃ p' cs c, p' ∈ ns_items ns' ∧ i_children p' = Some cs
                      ∧ c ∈ cs ∧ uid_type c = ("b", Some "Class"))))
  ∧ (∃ namespaces' ns',
       nest_items [Namespace "N1" (Some "N1") (Some "Namespace") deep_orphan_items]
       = OK namespaces'
       ∧ namespaces' !! 0 = Some ns'
       ∧ ((∃ it', it' ∈ ns_items ns'
                  ∧ triple it' = ("z", Some "X.Y.Z", Some "Class"))
          ∨ (∃ p' cs c, p' ∈ ns_items ns' ∧ i_children p' = Some cs
                        ∧ c ∈ cs ∧ uid_type c = ("z", Some "Class")))).
Proof.
  split.
  - apply (no_entry_lost widget_forest 0
             (Namespace "N1" (Some "N1") (Some "Namespace")
                [Item "a" (Some "Widget") (Some "Class") None;
                 Item "b" (Some "Widget.Inner") (Some "Class") None])
             1 (Item "b" (Some "Widget.Inner") (Some "Class") None));
      reflexivity.
  - apply (no_entry_lost
             [Namespace "N1" (Some "N1") (Some "Namespace") deep_orphan_items] 0
             (Namespace "N1" (Some "N1") (Some "Namespace") deep_orphan_items)
             1 (Item "z" (Some "X.Y.Z") (Some "Class") None));
      reflexivity.
Defined.

(** The parent of [A.B.C] is itself re-parented in the three-level sample. *)
Example abc_parent_moves : forallb (parent_stays abc_items) abc_items = false.
Proof. reflexivity. Qed.

(** Names with at most one dot: the parent found has a name without dot. *)
Lemma parent_stays_two_levels items it :
  (∀ n parent_name child_name,
     i_name it = Some n → rsplit_dot n = Some (parent_name, child_name) →
     has_dot parent_name = false) →
  parent_stays items it = true.
Proof.
  intros H. unfold parent_stays. destruct (i_name it) as [n|]; [|done].
  destruct (rsplit_dot n) as [[pn cn]|] eqn:E; [|done].
  destruct (find_parent pn items); [|done].
  apply negb_true_iff, has_dot_not_reparented. by eapply H.
Qed.

(** An item whose parent is not in the list does not break the condition. *)
Example deep_orphan_parent_stays :
  forallb (parent_stays deep_orphan_items) deep_orphan_items = true.
Proof. reflexivity. Qed.

(** ** The parser raises exactly on an item before any namespace *)

Lemma parse_lines_orphan lines : ∀ st,
  current_namespace st = None → starts_with_namespace lines = false →
  parse_lines st lines = Raise TypeError.
Proof.
  induction lines as [|l ls IH]; intros st Hnone Hstart; [done|].
  simpl in Hstart. rewrite parse_lines_cons.
  destruct (is_ns_line l) eqn:Hl; [done|].
  destruct (is_item_line l) eqn:Hitem.
  - by rewrite parse_line_orphan.
  - pose proof (parse_line_not_ns st l Hl) as Hline.
    destruct (parse_line st l) as [st1|e]; simpl.
    + destruct Hline as [_ Hcur]. apply IH; [|done].
      rewrite Hnone in Hcur. by destruct (current_namespace st1).
    + destruct Hline as (_ & _ & ?). congruence.
Qed.

(** X7. The parser raises exactly when an item entry (['- uid:'] at
    indentation 2) comes before the first namespace entry (['- uid:'] at
    indentation 0): then it raises [TypeError], and on any other text it
    returns. *)
Theorem parse_toc_raises_iff_orphan content :
  (starts_with_namespace (split_lines content) = false →
   parse_toc content = Raise TypeError)
  ∧ (starts_with_namespace (split_lines content) = true →
     ∃ namespaces, parse_toc content = OK namespaces).
Proof.
  split; intros H; unfold parse_toc.
  - fold (parse_lines parse_init). by rewrite parse_lines_orphan.
  - destruct (parse_lines_uids parse_init (split_lines content)) as (st & -> & _);
      [by right|].
    by eexists.
Qed.

Lemma parse_toc_raises_iff_orphan_witness :
  parse_toc orphan_toc = Raise TypeError
  ∧ ∃ namespaces, parse_toc widget_toc = OK namespaces.
Proof.
  split.
  - apply (proj1 (parse_toc_raises_iff_orphan orphan_toc)). reflexivity.
  - apply (proj2 (parse_toc_raises_iff_orphan widget_toc)). reflexivity.
Defined.

(** ** The fields of a namespace keep their first value *)

Lemma parse_line_ns_name_set st line r ns :
  strip line = "name:" +:+ r → indent_of line = 2 →
  current_namespace st = Some ns → is_Some (ns_name ns) →
  parse_line st line = OK st.
Proof.
  intros H Hi Hns [v Hv]. parse_line_eval H Hi. rewrite Hns. simpl.
  by rewrite Hv.
Qed.

Lemma parse_line_ns_type_set st line r ns :
  strip line = "type:" +:+ r → indent_of line = 2 →
  current_namespace st = Some ns → is_Some (ns_type ns) →
  parse_line st line = OK st.
Proof.
  intros H Hi Hns [v Hv]. parse_line_eval H Hi. rewrite Hns. simpl.
  by rewrite Hv.
Qed.

Lemma parse_lines_ns_name_set lines : ∀ st ns,
  current_namespace st = Some ns → is_Some (ns_name ns) →
  forallb (is_ns_field_line "name:") lines = true →
  parse_lines st lines = OK st.
Proof.
  induction lines as [|l ls IH]; intros st ns Hns Hset Hall; [done|].
  simpl in Hall. apply andb_prop in Hall as [[Hs Hi]%andb_prop Hall].
  apply startswith_inv in Hs as [r Hs]. apply Nat.eqb_eq in Hi.
  rewrite parse_lines_cons, (parse_line_ns_name_set _ _ r ns) by done.
  by apply (IH st ns).
Qed.

Lemma parse_lines_ns_type_set lines : ∀ st ns,
  current_namespace st = Some ns → is_Some (ns_type ns) →
  forallb (is_ns_field_line "type:") lines = true →
  parse_lines st lines = OK st.
Proof.
  induction lines as [|l ls IH]; intros st ns Hns Hset Hall; [done|].
  simpl in Hall. apply andb_prop in Hall as [[Hs Hi]%andb_prop Hall].
  apply startswith_inv in Hs as [r Hs]. apply Nat.eqb_eq in Hi.
  rewrite parse_lines_cons, (parse_line_ns_type_set _ _ r ns) by done.
  by apply (IH st ns).
Qed.

(** X8. For a namespace the first occurrence wins: when the name of the
    current namespace is not yet set, a run of name lines at indentation 2
    sets it to the value of the first line, and the later lines change
    nothing; the same holds for the kind. *)
Theorem namespace_fields_keep_first st ns first_line lines :
  current_namespace st = Some ns →
  (ns_name ns = None →
   forallb (is_ns_field_line "name:") (first_line :: lines) = true →
   parse_lines st (first_line :: lines)
   = OK (PState (p_result st)
                (Some (set_ns_name (field_value "name:" first_line) ns))
                (current_item st)))
  ∧ (ns_type ns = None →
     forallb (is_ns_field_line "type:") (first_line :: lines) = true →
     parse_lines st (first_line :: lines)
     = OK (PState (p_result st)
                  (Some (set_ns_type (field_value "type:" first_line) ns))
                  (current_item st))).
Proof.
  intros Hns. split; intros Hunset Hall; simpl in Hall;
    apply andb_prop in Hall as [[Hs Hi]%andb_prop Hall];
    apply startswith_inv in Hs as [r Hs]; apply Nat.eqb_eq in Hi;
    rewrite parse_lines_cons.
  - rewrite (parse_line_ns_name _ _ r ns) by done. cbn [mbind result_bind].
    unfold field_value. rewrite Hs.
    by eapply parse_lines_ns_name_set.
  - rewrite (parse_line_ns_type _ _ r ns) by done. cbn [mbind result_bind].
    unfold field_value. rewrite Hs.
    by eapply parse_lines_ns_type_set.
Qed.

Lemma namespace_fields_keep_first_witness :
  parse_lines (PState [] (Some (Namespace "N1" None None [])) None)
    ["  name: First"; "  name: Second"]
  = OK (PState [] (Some (Namespace "N1" (Some "First") None [])) None).
Proof.
  apply (proj1 (namespace_fields_keep_first
                  (PState [] (Some (Namespace "N1" None None [])) None)
                  (Namespace "N1" None None [])
                  "  name: First" ["  name: Second"] eq_refl));
    reflexivity.
Defined.

(** ** Lines without effect *)

Lemma parse_line_inert st line : is_inert line = true → parse_line st line = OK st.
Proof.
  unfold is_inert. intros [[H|H]%orb_prop|H]%orb_prop.
  - apply parse_line_blank. by destruct (strip line).
  - by apply parse_line_header.
  - by apply parse_line_items_marker, String.eqb_eq.
Qed.

(** X9. Blank lines, lines that begin with [###] and items-list markers, at
    whatever indentation and wherever they stand, have no effect: parsing
    the lines without them gives the same result, exception included. *)
Theorem parse_lines_without_inert st lines :
  parse_lines st (List.filter (λ l, negb (is_inert l)) lines) = parse_lines st lines.
Proof.
  revert st. induction lines as [|l ls IH]; intros st; [done|]. simpl.
  destruct (is_inert l) eqn:E; simpl.
  - by rewrite parse_lines_cons, (parse_line_inert _ _ E), IH.
  - rewrite !parse_lines_cons. destruct (parse_line st l); simpl; [apply IH|done].
Qed.

(** ** White space at the end of a line *)

Lemma rstrip_all_space ws : all_space ws = true → rstrip ws = "".
Proof.
  induction ws as [|c ws IH]; [done|]. simpl. intros [Hc Hws]%andb_prop.
  by rewrite Hc, (IH Hws).
Qed.

Lemma lstrip_all_space ws : all_space ws = true → lstrip ws = "".
Proof.
  induction ws as [|c ws IH]; [done|]. simpl. intros [Hc Hws]%andb_prop.
  by rewrite Hc, (IH Hws).
Qed.

Lemma rstrip_app_space s ws : all_space ws = true → rstrip (s +:+ ws) = rstrip s.
Proof.
  intros Hws. induction s as [|c s IH].
  - by rewrite app_empty_l, rstrip_all_space.
  - rewrite app_String. simpl. by rewrite IH.
Qed.

Lemma lstrip_app_space s ws :
  all_space ws = true →
  lstrip (s +:+ ws) = if is_empty (lstrip s) then "" else lstrip s +:+ ws.
Proof.
  intros Hws. induction s as [|c s IH].
  - by rewrite app_empty_l, lstrip_all_space.
  - rewrite app_String. simpl. destruct (isspace c); [apply IH|done].
Qed.

Lemma strip_app_space s ws : all_space ws = true → strip (s +:+ ws) = strip s.
Proof.
  intros Hws. unfold strip. rewrite (lstrip_app_space _ _ Hws).
  destruct (lstrip s) as [|c t]; [done|]. by apply rstrip_app_space.
Qed.

Lemma indent_of_app_space s ws :
  all_space ws = true → is_empty (strip s) = false →
  indent_of (s +:+ ws) = indent_of s.
Proof.
  intros Hws Hs. unfold indent_of. rewrite (lstrip_app_space _ _ Hws).
  unfold strip in Hs. destruct (lstrip s) as [|c t] eqn:E; [done|].
  cbn [is_empty]. rewrite !len_app.
  pose proof (len_lstrip s) as Hle. rewrite E in Hle. lia.
Qed.

Lemma parse_line_app_space st line ws :
  all_space ws = true → parse_line st (line +:+ ws) = parse_line st line.
Proof.
  intros Hws. unfold parse_line. cbv zeta. rewrite (strip_app_space _ _ Hws).
  destruct (is_empty (strip line)) eqn:E; [done|].
  by rewrite (indent_of_app_space _ _ Hws E).
Qed.

(** X10. White space at the end of a line has no effect, whatever it is
    (blanks, tabs, the carriage return left by a CR LF line end): a line
    with white space appended is parsed as the line itself, and so is a
    whole list of such lines. *)
Theorem parse_lines_trailing_space st lines ws :
  all_space ws = true →
  parse_lines st ((λ l, l +:+ ws) <$> lines) = parse_lines st lines.
Proof.
  intros Hws. revert st. induction lines as [|l ls IH]; intros st; [done|].
  rewrite fmap_cons, !parse_lines_cons, (parse_line_app_space _ _ _ Hws).
  destruct (parse_line st l); simpl; [apply IH|done].
Qed.

Lemma parse_lines_trailing_space_witness :
  parse_lines parse_init
    ((λ l, l +:+ String "013" "") <$> ["- uid: N1"; "  name: One"])
  = parse_lines parse_init ["- uid: N1"; "  name: One"].
Proof.
  apply (parse_lines_trailing_space parse_init ["- uid: N1"; "  name: One"]
           (String "013" "")).
  reflexivity.
Defined.

(** ** The shape of what the parser returns *)

Lemma rstrip_idem s : rstrip (rstrip s) = rstrip s.
Proof.
  induction s as [|c s IH]; [done|]. simpl.
  destruct (isspace c && is_empty (rstrip s)) eqn:E; [done|].
  simpl. by rewrite IH, E.
Qed.

Lemma lstrip_rstrip_lstrip s : lstrip (rstrip (lstrip s)) = rstrip (lstrip s).
Proof.
  induction s as [|c s IH]; [done|]. simpl.
  destruct (isspace c) eqn:Hc; [done|].
  simpl. rewrite Hc. simpl. by rewrite Hc.
Qed.

Lemma strip_idem s : strip (strip s) = strip s.
Proof. unfold strip. by rewrite lstrip_rstrip_lstrip, rstrip_idem. Qed.

Lemma has_newline_lstrip s : has_newline s = false → has_newline (lstrip s) = false.
Proof.
  induction s as [|c s IH]; [done|]. simpl. intros [Hc Hs]%orb_false_iff.
  destruct (isspace c); [by apply IH|]. simpl. by rewrite Hc, Hs.
Qed.

Lemma has_newline_rstrip s : has_newline s = false → has_newline (rstrip s) = false.
Proof.
  induction s as [|c s IH]; [done|]. simpl. intros [Hc Hs]%orb_false_iff.
  destruct (isspace c && is_empty (rstrip s)); [done|]. simpl. by rewrite Hc, IH.
Qed.

Lemma has_newline_remove_go pat s : ∀ k,
  has_newline s = false → has_newline (remove_go pat k s) = false.
Proof.
  induction s as [|c s IH]; intros k; [done|]. simpl.
  intros [Hc Hs]%orb_false_iff. destruct k as [|k]; [|by apply IH].
  destruct (startswith (String c s) pat); [by apply IH|]. simpl. by rewrite Hc, IH.
Qed.

Lemma split_lines_one_line s : Forall one_line (split_lines s).
Proof.
  induction s as [|c s IH]; [by repeat constructor|]. simpl.
  destruct (Ascii.eqb c newline) eqn:Hc; [by constructor|].
  destruct (split_lines s) as [|x xs]; [by repeat constructor; unfold one_line; simpl; rewrite Hc|].
  inversion IH as [|?? Hx Hxs]; subst. constructor; [|done].
  unfold one_line in *. simpl. by rewrite Hc, Hx.
Qed.

Lemma clean_field_value key line :
  one_line line → clean_value (field_value key line) = true.
Proof.
  intros Hline. unfold clean_value, field_value.
  rewrite strip_idem, String.eqb_refl. simpl. apply negb_true_iff.
  unfold strip at 1.
  apply has_newline_rstrip, has_newline_lstrip, has_newline_remove_go.
  unfold strip. by apply has_newline_rstrip, has_newline_lstrip.
Qed.

Lemma parsed_items_alter f i items :
  (∀ it, parsed_item it = true → parsed_item (f it) = true) →
  forallb parsed_item items = true →
  forallb parsed_item (alter f i items) = true.
Proof.
  intros Hf. revert i. induction items as [|x l IH]; intros i; [done|].
  simpl. intros [Hx Hl]%andb_prop. destruct i as [|i]; simpl.
  - by rewrite (Hf _ Hx), Hl.
  - rewrite Hx. simpl. exact (IH i Hl).
Qed.

Lemma parsed_namespace_inv ns :
  parsed_namespace ns = true →
  clean_value (ns_uid ns) = true ∧ clean_field (ns_name ns) = true
  ∧ clean_field (ns_type ns) = true ∧ forallb parsed_item (ns_items ns) = true.
Proof.
  unfold parsed_namespace. by intros [[[??]%andb_prop ?]%andb_prop ?]%andb_prop.
Qed.

Lemma parsed_namespace_intro u n t items :
  clean_value u = true → clean_field n = true → clean_field t = true →
  forallb parsed_item items = true →
  parsed_namespace (Namespace u n t items) = true.
Proof. intros Hu Hn Ht Hi. unfold parsed_namespace. simpl. by rewrite Hu, Hn, Ht, Hi. Qed.

Lemma parsed_item_set_name v it :
  clean_value v = true → parsed_item it = true → parsed_item (set_i_name v it) = true.
Proof.
  destruct it as [u n t cs]. unfold parsed_item, childless, clean_field. simpl.
  intros Hv [[[Hu _]%andb_prop Ht]%andb_prop Hc]%andb_prop.
  by rewrite Hu, Hv, Ht, Hc.
Qed.

Lemma parsed_item_set_type v it :
  clean_value v = true → parsed_item it = true → parsed_item (set_i_type v it) = true.
Proof.
  destruct it as [u n t cs]. unfold parsed_item, childless, clean_field. simpl.
  intros Hv [[[Hu Hn]%andb_prop _]%andb_prop Hc]%andb_prop.
  by rewrite Hu, Hv, Hn, Hc.
Qed.

Lemma parsed_current_inv o :
  forallb parsed_namespace (option_list o) = true →
  ∀ ns, o = Some ns → parsed_namespace ns = true.
Proof. intros H ns ->. simpl in H. by apply andb_prop in H as [? _]. Qed.

Lemma parsed_current_intro ns :
  parsed_namespace ns = true →
  forallb parsed_namespace (option_list (Some ns)) = true.
Proof. intros H. simpl. by rewrite H. Qed.

Lemma parse_line_parsed st line st' :
  one_line line → parsed_state st → parse_line st line = OK st' → parsed_state st'.
Proof.
  intros Hline [Hres Hcur].
  pose proof (clean_field_value "- uid:" line Hline) as Hu.
  pose proof (clean_field_value "name:" line Hline) as Hn.
  pose proof (clean_field_value "type:" line Hline) as Ht.
  unfold field_value in Hu, Hn, Ht.
  destruct st as [res cur ci]. unfold parsed_state, parse_line, update_current_item.
  cbv zeta. cbn [p_result current_namespace current_item] in *.
  pose proof (parsed_current_inv _ Hcur) as Hns.
  repeat lazymatch goal with
         | |- (if ?b then _ else _) = _ → _ => destruct b eqn:?
         end;
    try (intros; simplify_eq; by split).
  - intros. simplify_eq. split; cbn [p_result current_namespace].
    + by rewrite forallb_app, Hres, Hcur.
    + by apply parsed_current_intro, parsed_namespace_intro.
  - intros. simplify_eq. split; [done|]. cbn [current_namespace].
    destruct cur as [ns|]; [|done].
    destruct (parsed_namespace_inv ns (Hns ns eq_refl)) as (? & ? & ? & ?).
    by apply parsed_current_intro, parsed_namespace_intro.
  - intros. simplify_eq. split; [done|]. cbn [current_namespace].
    destruct cur as [ns|]; [|done].
    destruct (parsed_namespace_inv ns (Hns ns eq_refl)) as (? & ? & ? & ?).
    by apply parsed_current_intro, parsed_namespace_intro.
  - destruct cur as [ns|]; [|done]. intros. simplify_eq.
    split; [done|]. cbn [current_namespace].
    destruct (parsed_namespace_inv ns (Hns ns eq_refl)) as (? & ? & ? & Hitems).
    apply parsed_current_intro, parsed_namespace_intro; [done..|].
    rewrite forallb_app, Hitems. cbn [forallb]. unfold parsed_item. simpl.
    by rewrite Hu.
  - intros. simplify_eq. destruct ci as [i|], cur as [ns|]; try by split.
    split; [done|]. cbn [current_namespace].
    destruct (parsed_namespace_inv ns (Hns ns eq_refl)) as (? & ? & ? & Hitems).
    apply parsed_current_intro, parsed_namespace_intro; [done..|].
    apply parsed_items_alter; [|done]. intros it. by apply parsed_item_set_name.
  - intros. simplify_eq. destruct ci as [i|], cur as [ns|]; try by split.
    split; [done|]. cbn [current_namespace].
    destruct (parsed_namespace_inv ns (Hns ns eq_refl)) as (? & ? & ? & Hitems).
    apply parsed_current_intro, parsed_namespace_intro; [done..|].
    apply parsed_items_alter; [|done]. intros it. by apply parsed_item_set_type.
Qed.

Lemma parse_lines_parsed lines : ∀ st st',
  Forall one_line lines → parsed_state st → parse_lines st lines = OK st' →
  parsed_state st'.
Proof.
  induction lines as [|l ls IH]; intros st st' Hall Hst H.
  - unfold parse_lines in H. simpl in H. by simplify_eq.
  - inversion Hall as [|?? Hl Hls]; subst. rewrite parse_lines_cons in H.
    destruct (parse_line st l) as [st1|] eqn:E; [|done]. simpl in H.
    eapply IH; [done| |done]. by eapply parse_line_parsed.
Qed.

(** X11. Whatever the text, every record that the parser returns has an
    identifier, and a name and a kind when set, that are stripped (no white
    space at either end) and hold no line break, and no item has a child
    list. *)
Theorem parse_toc_shape content namespaces :
  parse_toc content = OK namespaces →
  forallb parsed_namespace namespaces = true.
Proof.
  unfold parse_toc. fold (parse_lines parse_init).
  destruct (parse_lines parse_init (split_lines content)) as [st|] eqn:E; [|done].
  simpl. intros. simplify_eq.
  assert (parsed_state parse_init) as Hinit by (by split).
  destruct (parse_lines_parsed _ _ _ (split_lines_one_line content) Hinit E)
    as [Hres Hcur].
  unfold parse_finish. by rewrite forallb_app, Hres, Hcur.
Qed.

Lemma parse_toc_shape_witness : forallb parsed_namespace widget_forest = true.
Proof. apply (parse_toc_shape widget_toc widget_forest). reflexivity. Defined.

(** ** Items are never dropped *)

Lemma item_uids_app l1 l2 : item_uids (l1 ++ l2) = item_uids l1 ++ item_uids l2.
Proof. unfold item_uids. apply flat_map_app. Qed.

Lemma uids_alter (f : item → item) (i : nat) (items : list item) :
  (∀ it, i_uid (f it) = i_uid it) →
  i_uid <$> alter f i items = i_uid <$> items.
Proof.
  intros Hf. revert i. induction items as [|x l IH]; intros [|i]; simpl; [done..| |].
  - by rewrite Hf.
  - f_equal. apply IH.
Qed.

Lemma parse_line_item st line ns :
  is_item_line line = true → current_namespace st = Some ns →
  parse_line st line
  = OK (PState (p_result st)
               (Some (set_ns_items
                        (ns_items ns ++ [Item (field_value "- uid:" line) None None None])
                        ns))
               (Some (length (ns_items ns)))).
Proof.
  unfold is_item_line. intros [Hs Hi]%andb_prop Hns.
  apply startswith_inv in Hs as [r Hs]. apply Nat.eqb_eq in Hi.
  rewrite (parse_line_item_uid _ _ r ns Hs Hi Hns). unfold field_value. by rewrite Hs.
Qed.

(** What a line that starts no item does to the identifiers of the items. *)
Lemma parse_line_not_item st line st' :
  is_item_line line = false → parse_line st line = OK st' →
  item_uids (parse_finish st') = item_uids (parse_finish st).
Proof.
  intros Hitem. destruct st as [res cur ci].
  unfold is_item_line, parse_line, update_current_item, parse_finish in *.
  cbv zeta. cbn [p_result current_namespace current_item]. rewrite Hitem.
  repeat lazymatch goal with
         | |- (if ?b then _ else _) = _ → _ => destruct b eqn:?
         end;
    intros; simplify_eq; cbn [p_result current_namespace]; try done.
  - rewrite (item_uids_app (res ++ option_list cur)). unfold item_uids at 2.
    simpl. by rewrite app_nil_r.
  - destruct cur as [ns|]; [|done]. by rewrite !item_uids_app.
  - destruct cur as [ns|]; [|done]. by rewrite !item_uids_app.
  - destruct ci as [i|], cur as [ns|]; cbn [p_result current_namespace]; try done.
    rewrite !item_uids_app. f_equal. unfold item_uids. simpl. f_equal.
    by apply uids_alter.
  - destruct ci as [i|], cur as [ns|]; cbn [p_result current_namespace]; try done.
    rewrite !item_uids_app. f_equal. unfold item_uids. simpl. f_equal.
    by apply uids_alter.
Qed.

Lemma parse_lines_item_uids lines : ∀ st st',
  parse_lines st lines = OK st' →
  item_uids (parse_finish st')
  = item_uids (parse_finish st)
    ++ (field_value "- uid:" <$> List.filter is_item_line lines).
Proof.
  induction lines as [|l ls IH]; intros st st' H.
  - unfold parse_lines in H. simpl in H. simplify_eq. simpl. by rewrite app_nil_r.
  - rewrite parse_lines_cons in H.
    destruct (parse_line st l) as [st1|] eqn:E; [|done]. simpl in H.
    rewrite (IH _ _ H). simpl. destruct (is_item_line l) eqn:Hl.
    + destruct (current_namespace st) as [ns|] eqn:Hns.
      * rewrite (parse_line_item _ _ ns Hl Hns) in E. simplify_eq.
        unfold parse_finish. simpl. rewrite Hns, !item_uids_app.
        unfold item_uids at 2 4. simpl. rewrite !app_nil_r, fmap_app. simpl.
        by rewrite <-!(assoc_L (++)).
      * by rewrite (parse_line_orphan _ _ Hl Hns) in E.
    + by rewrite (parse_line_not_item _ _ _ Hl E).
Qed.

(** X17. When the parser returns, the identifiers of the items of its
    result, namespace after namespace, are the values of all ['- uid:']
    lines at indentation 2, in order: no item entry is dropped or moved. *)
Theorem parse_toc_keeps_every_item content namespaces :
  parse_toc content = OK namespaces →
  item_uids namespaces
  = field_value "- uid:" <$> List.filter is_item_line (split_lines content).
Proof.
  unfold parse_toc. fold (parse_lines parse_init).
  destruct (parse_lines parse_init (split_lines content)) as [st|] eqn:E; [|done].
  simpl. intros. simplify_eq. by rewrite (parse_lines_item_uids _ _ _ E).
Qed.

Lemma parse_toc_keeps_every_item_witness :
  item_uids widget_forest
  = field_value "- uid:" <$> List.filter is_item_line (split_lines widget_toc).
Proof. apply (parse_toc_keeps_every_item widget_toc widget_forest). reflexivity. Defined.

(** ** The indentation that the writer gives *)

Lemma indent_of_items_marker n : indent_of (indent_prefix n +:+ "  items:") = 2 * n + 2.
Proof. by rewrite indent_of_indent. Qed.

Lemma Forall_flat_map_lines {A} (P : string → Prop) (f : A → list string) l :
  Forall (λ x, Forall P (f x)) l → Forall P (List.flat_map f l).
Proof. induction 1; simpl; [done|]. by apply Forall_app. Qed.

(** X12. The entry that [write_item] writes at level [n] begins with a
    ['- uid:'] line at indentation [2 n], as the parser measures it, and
    every other line of the entry, its fields, its items marker and all the
    entries of its descendants, stands at indentation [2 n + 2] or deeper. *)
Theorem write_item_indentation it : ∀ n,
  ∃ entry rest,
    write_item it n = entry :: rest
    ∧ indent_of entry = 2 * n
    ∧ Forall (λ l, 2 * n + 2 ≤ indent_of l) rest.
Proof.
  induction it as [u nm t|u nm t cs IH] using item_ind_nested; intros n;
    rewrite write_item_unfold; cbn [i_uid i_name i_type i_children];
    eexists _, _; (split; [reflexivity|]);
    (split; [rewrite indent_of_indent, indent_of_uid_line; lia|]).
  - repeat constructor.
    + rewrite indent_of_indent, indent_of_name_line. lia.
    + rewrite indent_of_indent, indent_of_type_line. lia.
  - constructor; [rewrite indent_of_indent, indent_of_name_line; lia|].
    constructor; [rewrite indent_of_indent, indent_of_type_line; lia|].
    destruct cs as [|c cs]; [done|].
    constructor; [rewrite indent_of_items_marker; lia|].
    apply Forall_flat_map_lines. eapply Forall_impl; [exact IH|].
    intros x Hx. destruct (Hx (S n)) as (entry & rest & -> & Hentry & Hrest).
    constructor; [lia|]. eapply Forall_impl; [exact Hrest|].
    intros l Hl. simpl in Hl. lia.
Qed.

(** ** The parser on what the writer makes *)

Lemma split_lines_nonempty s : ∃ x xs, split_lines s = x :: xs.
Proof.
  induction s as [|c s (x & xs & IH)]; [by eexists _, _|]. simpl. rewrite IH.
  destruct (Ascii.eqb c newline); by eexists _, _.
Qed.

Lemma split_lines_prefix p z x xs :
  has_newline p = false → split_lines z = x :: xs →
  split_lines (p +:+ z) = (p +:+ x) :: xs.
Proof.
  intros Hp Hz. induction p as [|c p IH]; [done|].
  simpl in Hp. apply orb_false_iff in Hp as [Hc Hp].
  rewrite app_String. simpl. by rewrite Hc, (IH Hp).
Qed.

Lemma is_ns_line_uid v : is_ns_line ("- uid: " +:+ v) = true.
Proof.
  unfold is_ns_line. by rewrite strip_uid_line, startswith_app, indent_of_uid_line.
Qed.

Lemma split_text_cons x y ys :
  has_newline x = false →
  split_lines (text (x :: y :: ys)) = x :: split_lines (text (y :: ys)).
Proof.
  intros Hx. unfold text.
  change (join_lines (x :: y :: ys)) with (x +:+ String newline (join_lines (y :: ys))).
  by rewrite str_app_assoc, app_String, split_lines_line.
Qed.

Lemma toc_lines_cons ns l :
  ∃ rest,
    toc_lines (ns :: l)
    = "### YamlMime:TableOfContent" :: "items:" :: ("- uid: " +:+ ns_uid ns)
        :: ("  name: " +:+ fmt (ns_name ns)) :: rest.
Proof. by eexists. Qed.

Lemma written_starts_with_namespace namespaces :
  starts_with_namespace (split_lines (write_toc namespaces)) = true.
Proof.
  destruct namespaces as [|ns l]; [reflexivity|].
  unfold write_toc. fold (text (toc_lines (ns :: l))).
  destruct (toc_lines_cons ns l) as [rest ->].
  rewrite !split_text_cons by done.
  unfold text.
  change (join_lines (("- uid: " +:+ ns_uid ns) :: ("  name: " +:+ fmt (ns_name ns)) :: rest))
    with (("- uid: " +:+ ns_uid ns)
          +:+ String newline (join_lines (("  name: " +:+ fmt (ns_name ns)) :: rest))).
  rewrite !str_app_assoc.
  destruct (split_lines_nonempty
              (ns_uid ns
               +:+ String newline (join_lines (("  name: " +:+ fmt (ns_name ns)) :: rest))
               +:+ String newline "")) as (x & xs & Hsplit).
  rewrite (split_lines_prefix "- uid: " _ x xs) by done.
  simpl. by rewrite is_ns_line_uid.
Qed.

(** X13. The parser returns on every document that the writer makes,
    whatever the records hold: the first entry of such a document is a
    namespace entry, so the parser never meets an item without namespace. *)
Theorem parse_written_returns namespaces :
  ∃ namespaces', parse_toc (write_toc namespaces) = OK namespaces'.
Proof.
  unfold parse_toc.
  destruct (parse_lines_uids parse_init (split_lines (write_toc namespaces)))
    as (st & -> & _).
  - right. apply written_starts_with_namespace.
  - by eexists.
Qed.

(** ** The driver on an existing file *)

Lemma pipeline_OK content out :
  pipeline content = OK out →
  ∃ namespaces nested,
    parse_toc content = OK namespaces ∧ nest_items namespaces = OK nested
    ∧ out = write_toc nested.
Proof.
  unfold pipeline. destruct (parse_toc content) as [namespaces|]; [simpl|done].
  destruct (nest_items namespaces) as [nested|] eqn:E; [simpl|done].
  intros. simplify_eq. by exists namespaces, nested.
Qed.

Lemma pipeline_Raise content e :
  pipeline content = Raise e →
  parse_toc content = Raise e
  ∨ ∃ namespaces, parse_toc content = OK namespaces ∧ nest_items namespaces = Raise e.
Proof.
  unfold pipeline. destruct (parse_toc content) as [namespaces|];
    [simpl|simpl; intros; simplify_eq; by left].
  destruct (nest_items namespaces) as [nested|] eqn:E; [done|simpl].
  intros. simplify_eq. right. by eexists.
Qed.

Lemma main_on_success toc_path w stored out :
  w_file w = Some stored → pipeline (read_text stored) = OK out →
  main toc_path w
  = (Returned,
     World (Some out)
           (w_stdout w ++ ["Processing " +:+ toc_path +:+ "...";
                           "TOC restructured successfully!"])
           (w_stderr w)).
Proof.
  intros Hfile (namespaces & nested & Hp & Hn & ->)%pipeline_OK.
  unfold main, print, write_text. rewrite Hfile. simpl. rewrite Hp, Hn. simpl.
  by rewrite <-(assoc_L (++)).
Qed.

Lemma main_on_raise toc_path w stored e :
  w_file w = Some stored → pipeline (read_text stored) = Raise e →
  main toc_path w
  = (Uncaught e,
     World (Some stored) (w_stdout w ++ ["Processing " +:+ toc_path +:+ "..."])
           (w_stderr w)).
Proof.
  intros Hfile Hraise. unfold main, print. rewrite Hfile. simpl.
  apply pipeline_Raise in Hraise as [Hp|(namespaces & Hp & Hn)].
  - by rewrite Hp.
  - by rewrite Hp, Hn.
Qed.

(** X14. A run of the script on an existing file replaces the file only
    when the three stages, applied to the text as text mode reads it (CR LF
    and CR read as LF), have all returned: then the exit status is 0, the
    file holds the output of the stages, the two messages are printed and
    the error stream is as it was.  When a stage raises, the exit status is
    1, the file is as it was, only the first message is printed, and the
    interpreter's traceback for the exception is added to the error
    stream. *)
Theorem run_writes_only_on_success toc_path traceback w stored :
  w_file w = Some stored →
  run toc_path traceback w
  = match pipeline (read_text stored) with
    | OK out =>
        (0, World (Some out)
                  (w_stdout w ++ ["Processing " +:+ toc_path +:+ "...";
                                  "TOC restructured successfully!"])
                  (w_stderr w))
    | Raise e =>
        (1, World (Some stored)
                  (w_stdout w ++ ["Processing " +:+ toc_path +:+ "..."])
                  (w_stderr w ++ traceback e))
    end.
Proof.
  intros Hfile. unfold run.
  destruct (pipeline (read_text stored)) as [out|e] eqn:Hpipe.
  - by rewrite (main_on_success toc_path w stored out Hfile Hpipe).
  - by rewrite (main_on_raise toc_path w stored e Hfile Hpipe).
Qed.

Lemma run_writes_only_on_success_witness :
  run "toc.yml" (λ e, ["Traceback (most recent call last):"])
      (World (Some widget_toc_mixed) [] ["earlier"])
  = (0, World (Some (text ["### YamlMime:TableOfContent"; "items:";
                           "- uid: N1"; "  name: N1"; "  type: None"; "  items:";
                           "  - uid: a"; "    name: Widget"; "    type: None";
                           "    items:";
                           "    - uid: b"; "      name: Inner"; "      type: None"]))
              ["Processing toc.yml..."; "TOC restructured successfully!"]
              ["earlier"])
  ∧ run "toc.yml" (λ e, ["Traceback (most recent call last):"])
        (World (Some unnamed_toc) [] ["earlier"])
    = (1, World (Some unnamed_toc) ["Processing toc.yml..."]
                ["earlier"; "Traceback (most recent call last):"]).
Proof.
  split.
  - apply (run_writes_only_on_success
             "toc.yml" (λ e, ["Traceback (most recent call last):"])
             (World (Some widget_toc_mixed) [] ["earlier"]) widget_toc_mixed).
    reflexivity.
  - apply (run_writes_only_on_success
             "toc.yml" (λ e, ["Traceback (most recent call last):"])
             (World (Some unnamed_toc) [] ["earlier"]) unnamed_toc).
    reflexivity.
Defined.

(** Without the translation of line endings the stages see other lines. *)
Example mixed_line_endings_unread :
  pipeline widget_toc_mixed ≠ pipeline (read_text widget_toc_mixed).
Proof. by vm_compute. Qed.

(** ** Documents that the tool leaves as they are *)

Lemma parse_written_flattened namespaces :
  forallb plain_namespace namespaces = true →
  parse_toc (write_toc namespaces) = OK (flattened <$> namespaces).
Proof.
  intros Hplain. unfold parse_toc, write_toc. fold (text (toc_lines namespaces)).
  unfold toc_lines at 1. simpl app.
  rewrite split_lines_text by (apply (toc_lines_one_line _ Hplain)).
  fold (parse_lines parse_init).
  change (("### YamlMime:TableOfContent" :: "items:"
           :: List.flat_map write_namespace namespaces) ++ [""])
    with ("### YamlMime:TableOfContent" :: "items:"
          :: (List.flat_map write_namespace namespaces ++ [""])).
  rewrite parse_lines_cons, (parse_line_header _ "### YamlMime:TableOfContent") by done.
  cbn [mbind result_bind].
  rewrite parse_lines_cons, (parse_line_items_marker _ "items:") by done.
  cbn [mbind result_bind]. rewrite parse_lines_app.
  destruct (parse_written_namespaces namespaces parse_init Hplain) as (st' & -> & Hfinish).
  cbn [mbind result_bind].
  rewrite parse_lines_cons, (parse_line_blank _ "") by done.
  cbn [mbind result_bind]. unfold parse_lines. simpl. by rewrite Hfinish.
Qed.

Lemma plain_all_named namespaces :
  forallb plain_namespace namespaces = true → all_named namespaces = true.
Proof.
  unfold all_named. rewrite !forallb_forall. intros H ns Hns.
  specialize (H ns Hns). unfold plain_namespace in H.
  apply andb_prop in H as [_ Hitems]. rewrite forallb_forall in Hitems.
  apply forallb_forall. intros it Hit. specialize (Hitems it Hit).
  unfold plain_item in Hitems.
  apply andb_prop in Hitems as [[[_ Hn]%andb_prop _]%andb_prop _].
  unfold is_named. by destruct (i_name it).
Qed.

Lemma universal_newlines_fixed s :
  has_carriage_return s = false → universal_newlines s = s.
Proof.
  induction s as [|c s IH]; [done|]. simpl.
  destruct (Ascii.eqb c carriage_return); [done|]. simpl.
  intros H. by rewrite (IH H).
Qed.

(** X15. A document written from plain records without children, in which
    no name is re-parented, is a fixed point of the tool: the three stages
    give back the very text, and when the text holds no carriage return, a
    call of [main] on a file that holds it returns normally, prints the two
    messages and leaves the file with the same text. *)
Theorem settled_document_unchanged namespaces toc_path w :
  forallb plain_namespace namespaces = true →
  forallb (λ ns, forallb childless (ns_items ns)) namespaces = true →
  forallb settled namespaces = true →
  pipeline (write_toc namespaces) = OK (write_toc namespaces)
  ∧ (has_carriage_return (write_toc namespaces) = false →
     w_file w = Some (write_toc namespaces) →
     main toc_path w
     = (Returned,
        World (Some (write_toc namespaces))
              (w_stdout w ++ ["Processing " +:+ toc_path +:+ "...";
                              "TOC restructured successfully!"])
              (w_stderr w))).
Proof.
  intros Hplain Hflat Hsettled.
  assert (pipeline (write_toc namespaces) = OK (write_toc namespaces)) as Hpipe.
  { unfold pipeline.
    rewrite (parse_written_flattened _ Hplain), (flattened_childless _ Hflat).
    cbn [mbind result_bind].
    by rewrite (nest_settled_unchanged _ (plain_all_named _ Hplain) Hsettled). }
  split; [done|]. intros Hcr Hfile.
  apply (main_on_success toc_path w _ _ Hfile).
  unfold read_text. by rewrite (universal_newlines_fixed _ Hcr).
Qed.

Lemma settled_document_unchanged_witness :
  pipeline (write_toc settled_forest) = OK (write_toc settled_forest)
  ∧ main "toc.yml" (World (Some (write_toc settled_forest)) [] [])
    = (Returned,
       World (Some (write_toc settled_forest))
             ["Processing toc.yml..."; "TOC restructured successfully!"] []).
Proof.
  destruct (settled_document_unchanged settled_forest "toc.yml"
              (World (Some (write_toc settled_forest)) [] [])
              eq_refl eq_refl eq_refl) as [Hpipe Hmain].
  split; [exact Hpipe|]. apply Hmain; reflexivity.
Defined.

(** A carriage return inside a name is read as a line break: the stages
    return the text, a run on the file shortens the name. *)
Example carriage_return_in_name :
  pipeline broken_name_toc = OK broken_name_toc
  ∧ (main "toc.yml" (World (Some broken_name_toc) [] [])).2
    = World (Some (text ["### YamlMime:TableOfContent"; "items:";
                         "- uid: N1"; "  name: N1"; "  type: Namespace"; "  items:";
                         "  - uid: a"; "    name: Wid"; "    type: Class"]))
            ["Processing toc.yml..."; "TOC restructured successfully!"] [].
Proof. split; reflexivity. Qed.

(** ** The writer loses nothing of flat plain records *)

(** X18. On forests of plain records without children the writer is
    injective: two such forests with the same written text are equal. *)
Theorem write_toc_injective namespaces1 namespaces2 :
  forallb plain_namespace namespaces1 = true →
  forallb plain_namespace namespaces2 = true →
  forallb (λ ns, forallb childless (ns_items ns)) namespaces1 = true →
  forallb (λ ns, forallb childless (ns_items ns)) namespaces2 = true →
  write_toc namespaces1 = write_toc namespaces2 →
  namespaces1 = namespaces2.
Proof.
  intros Hp1 Hp2 Hc1 Hc2 Heq.
  pose proof (parse_written_flattened _ Hp1) as H1.
  pose proof (parse_written_flattened _ Hp2) as H2.
  rewrite (flattened_childless _ Hc1) in H1.
  rewrite (flattened_childless _ Hc2) in H2.
  rewrite Heq in H1. congruence.
Qed.

Lemma write_toc_injective_witness : settled_forest = settled_forest.
Proof.
  apply (write_toc_injective settled_forest settled_forest); reflexivity.
Defined.
